(** * Verification of the arbitrage core ported from poly-kalshi-arb

    Shallow embedding of the Python adaptation in the integration plan
    (fee table, in-flight deduplication, circuit breaker, partial-fill
    reconciliation) and of the strategy notes' opportunity detector,
    together with the parts of the engine that exist only as the design
    (orderbook versioning, ledger, the breaker's trip and fill path), which
    are marked "Modelled from the spec".

    Python integers are unbounded, so they are modelled as [Z]; Python's
    [//] and [%] round towards minus infinity, as [Z.div] and [Z.modulo]
    do. A Python list is a [list Z]; indexing follows Python: a negative
    index counts from the end and an index out of range raises
    [IndexError], modelled as [None]. Python floats are binary64 numbers
    with round-to-nearest-even arithmetic (module [PyFloat]). *)

From Stdlib Require Import ZArith Lia Bool String.
From stdpp Require Import base list gmap.

Open Scope string_scope.
Open Scope Z_scope.

(** ** Python list indexing *)

Definition py_index (len i : Z) : option nat :=
  if (0 <=? i) && (i <? len) then Some (Z.to_nat i)
  else if (- len <=? i) && (i <? 0) then Some (Z.to_nat (len + i))
  else None.

(** [l[i]] *)
Definition py_get (l : list Z) (i : Z) : option Z :=
  match py_index (Z.of_nat (length l)) i with
  | Some n => l !! n
  | None => None
  end.

(** [l[i] = v] *)
Definition py_set (l : list Z) (i : Z) (v : Z) : option (list Z) :=
  match py_index (Z.of_nat (length l)) i with
  | Some n => Some (<[n := v]> l)
  | None => None
  end.

(** ** Fee model: [kalshi_fee_cents] and [KALSHI_FEE_TABLE] *)

Module Fee.

(** [def kalshi_fee_cents(price_cents: int) -> int] *)
Definition kalshi_fee_cents (price_cents : Z) : Z :=
  if (price_cents >? 100) || (price_cents =? 0) then 0
  else
    let numerator := 7 * price_cents * (100 - price_cents) + 9999 in
    numerator / 10000.

(** [KALSHI_FEE_TABLE = [0] * 101]
    [for p in range(1, 100): KALSHI_FEE_TABLE[p] = (7*p*(100-p)+9999) // 10000]
    (every index of the loop is in range, so the assignment never raises) *)
Definition KALSHI_FEE_TABLE : list Z :=
  fold_left
    (fun (table : list Z) (p : Z) =>
       let numerator := 7 * p * (100 - p) + 9999 in
       <[Z.to_nat p := numerator / 10000]> table)
    (map Z.of_nat (seq 1 99))
    (repeat 0 101).

(** The convex fee [ceil(7 * p * (100 - p) / 10000)], characterised as the
    least integer [c] with [7 * p * (100 - p) <= c * 10000]. *)
Definition is_ceil_fee (p c : Z) : Prop :=
  (c - 1) * 10000 < 7 * p * (100 - p) <= c * 10000.

Definition is_ceil_feeb (p c : Z) : bool :=
  ((c - 1) * 10000 <? 7 * p * (100 - p)) && (7 * p * (100 - p) <=? c * 10000).

Definition table_entry_ok (p : Z) : bool :=
  match py_get KALSHI_FEE_TABLE p with
  | Some v => (v =? kalshi_fee_cents p) && is_ceil_feeb p v
  | None => false
  end.

End Fee.

(** ** In-flight deduplication: [class InFlightDedupe]

    Both methods run their read-modify-write under [self.lock], so every
    call is atomic and a run of concurrent calls is one of their
    interleavings: a sequence of calls on the shared object. *)

Module Dedupe.

Record dedupe := mk_dedupe { num_slots : Z; bitmask : list Z }.

(** [def __init__(self, num_markets=512)] *)
Definition init_with (num_markets : Z) : dedupe :=
  let n := num_markets / 64 in
  mk_dedupe n (repeat 0 (Z.to_nat n)).

Definition init : dedupe := init_with 512.

Definition mask_of (market_id : Z) : Z := Z.shiftl 1 (market_id mod 64).

(** [def try_claim(self, market_id: int) -> bool]; [None] is the
    [IndexError] raised by [self.bitmask[slot]]. *)
Definition try_claim (s : dedupe) (market_id : Z) : option (bool * dedupe) :=
  let slot := market_id / 64 in
  let mask := mask_of market_id in
  match py_get (bitmask s) slot with
  | None => None
  | Some cur =>
      if negb (Z.land cur mask =? 0) then Some (false, s)
      else
        match py_set (bitmask s) slot (Z.lor cur mask) with
        | None => None
        | Some bm => Some (true, mk_dedupe (num_slots s) bm)
        end
  end.

(** [def release(self, market_id: int)] *)
Definition release (s : dedupe) (market_id : Z) : option dedupe :=
  let slot := market_id / 64 in
  let mask := mask_of market_id in
  match py_get (bitmask s) slot with
  | None => None
  | Some cur =>
      match py_set (bitmask s) slot (Z.land cur (Z.lnot mask)) with
      | None => None
      | Some bm => Some (mk_dedupe (num_slots s) bm)
      end
  end.

(** Whether a market's bit is set. *)
Definition claimed (s : dedupe) (market_id : Z) : bool :=
  match py_get (bitmask s) (market_id / 64) with
  | Some v => Z.testbit v (market_id mod 64)
  | None => false
  end.

Inductive op := TryClaim (market_id : Z) | Release (market_id : Z).

Definition op_id (o : op) : Z :=
  match o with TryClaim m => m | Release m => m end.

(** One call; a [try_claim] returns [Some b], a [release] returns [None]
    (Python's [None]). An exception is the outer [None]. *)
Definition step (s : dedupe) (o : op) : option (dedupe * option bool) :=
  match o with
  | TryClaim m => match try_claim s m with
                  | Some (b, s') => Some (s', Some b)
                  | None => None
                  end
  | Release m => match release s m with
                 | Some s' => Some (s', None)
                 | None => None
                 end
  end.

(** A sequence of calls, with the trace of each call and its result. *)
Fixpoint run (s : dedupe) (ops : list op) : option (dedupe * list (op * option bool)) :=
  match ops with
  | [] => Some (s, [])
  | o :: rest =>
      match step s o with
      | None => None
      | Some (s1, r) =>
          match run s1 rest with
          | None => None
          | Some (s2, tr) => Some (s2, (o, r) :: tr)
          end
      end
  end.

(** The results of the [try_claim(m)] calls of a trace, in order. *)
Fixpoint claim_results (m : Z) (tr : list (op * option bool)) : list bool :=
  match tr with
  | [] => []
  | (TryClaim m', Some b) :: rest =>
      if m' =? m then b :: claim_results m rest else claim_results m rest
  | _ :: rest => claim_results m rest
  end.

Fixpoint count_claims (m : Z) (ops : list op) : nat :=
  match ops with
  | [] => O
  | TryClaim m' :: rest => if m' =? m then S (count_claims m rest) else count_claims m rest
  | _ :: rest => count_claims m rest
  end.

(** The expected results of [n] claims: the first succeeds, the others fail. *)
Definition first_only (n : nat) : list bool :=
  match n with O => [] | S k => true :: repeat false k end.

(** The operations of a run in which market [m] is not released: every id
    is in the bitmask's range and no call is [release(m)]. *)
Definition ops_ok (m : Z) (ops : list op) : Prop :=
  Forall (fun o => 0 <= op_id o < 512 /\ o <> Release m) ops.

Definition first_claim_only (s : dedupe) (m : Z) (ops : list op) : Prop :=
  exists s' tr, run s ops = Some (s', tr) /\ claim_results m tr = first_only (count_claims m ops).

(** The Rust variant in [execution.rs]: the claim check runs only when
    [market_id < 512]; otherwise the call goes on as claimed. [None] is
    [Err("Already in-flight")]. [market_id] is unsigned there. *)
Definition rust_claim (in_flight : list Z) (market_id : Z) : option (list Z) :=
  if market_id <? 512 then
    let slot := market_id / 64 in
    let mask := Z.shiftl 1 (market_id mod 64) in
    match in_flight !! Z.to_nat slot with
    | None => Some in_flight
    | Some prev =>
        let in_flight' := <[Z.to_nat slot := Z.lor prev mask]> in_flight in
        if negb (Z.land prev mask =? 0) then None else Some in_flight'
    end
  else Some in_flight.

(** The object with [market_id]'s bit set in its slot: what a successful
    [try_claim] leaves (and, the bit being set already, the object itself
    otherwise). *)
Definition set_bit (s : dedupe) (market_id : Z) : dedupe :=
  let i := Z.to_nat (market_id / 64) in
  mk_dedupe (num_slots s)
    (<[i := Z.lor (default 0 (bitmask s !! i)) (mask_of market_id)]> (bitmask s)).

(** The bitmask as [__init__] sizes it for the default 512 markets. *)
Definition wf (s : dedupe) : Prop := length (bitmask s) = 8%nat.

Definition rust_init : list Z := repeat 0 8.

End Dedupe.


(** ** Circuit breaker: [class CircuitBreaker] *)

Module Breaker.

Record breaker := mk_breaker {
  max_position_per_market : Z;
  max_total_position : Z;
  max_daily_loss : Z;          (** dollars *)
  max_consecutive_errors : Z;
  cooldown_secs : Z;
  halted : bool;
  daily_pnl_cents : Z;
  positions : gmap Z Z;        (** [{market_id: contracts}] *)
  consecutive_errors : Z;
  halt_reason : option string
}.

(** [def __init__(self)]; [max_daily_loss = 50.0] is integral, so it is
    kept as the integer 50. *)
Definition init : breaker :=
  {| max_position_per_market := 50000;
     max_total_position := 100000;
     max_daily_loss := 50;
     max_consecutive_errors := 5;
     cooldown_secs := 60;
     halted := false;
     daily_pnl_cents := 0;
     positions := ∅;
     consecutive_errors := 0;
     halt_reason := None |}.

(** Modelled from the spec: the body of [self.trip(reason)], which the
    source calls but does not show. "On trip, the breaker records the reason
    and a cooldown deadline"; [halted] is the flag [can_execute] reads. The
    deadline is not kept: nothing here re-arms the breaker. *)
Definition trip (b : breaker) (reason : string) : breaker :=
  {| max_position_per_market := max_position_per_market b;
     max_total_position := max_total_position b;
     max_daily_loss := max_daily_loss b;
     max_consecutive_errors := max_consecutive_errors b;
     cooldown_secs := cooldown_secs b;
     halted := true;
     daily_pnl_cents := daily_pnl_cents b;
     positions := positions b;
     consecutive_errors := consecutive_errors b;
     halt_reason := Some reason |}.

(** [self.positions.get(market_id, 0)] *)
Definition position_of (b : breaker) (market_id : Z) : Z :=
  default 0 (positions b !! market_id).

(** [sum(self.positions.values())] *)
Definition total_position (b : breaker) : Z :=
  map_fold (fun _ v acc => v + acc) 0 (positions b).

(** [async def can_execute(self, market_id, contracts) -> bool]; it awaits
    nothing, so a call runs to completion as one step. *)
Definition can_execute (b : breaker) (market_id contracts : Z) : bool * breaker :=
  if halted b then (false, b)
  else if position_of b market_id + contracts >? max_position_per_market b then (false, b)
  else if total_position b + contracts >? max_total_position b then (false, b)
  else if daily_pnl_cents b <? - max_daily_loss b * 100 then
    (false, trip b "Max daily loss exceeded")
  else (true, b).

(** Modelled from the spec: the fill path. "The Ledger ... feeds the Circuit
    Breaker": a confirmed fill moves the market's open position by a signed
    number of contracts and the running daily realized P&L by its result. *)
Definition apply_fill (b : breaker) (market_id contracts pnl_cents : Z) : breaker :=
  {| max_position_per_market := max_position_per_market b;
     max_total_position := max_total_position b;
     max_daily_loss := max_daily_loss b;
     max_consecutive_errors := max_consecutive_errors b;
     cooldown_secs := cooldown_secs b;
     halted := halted b;
     daily_pnl_cents := daily_pnl_cents b + pnl_cents;
     positions := <[market_id := position_of b market_id + contracts]> (positions b);
     consecutive_errors := consecutive_errors b;
     halt_reason := halt_reason b |}.

(** Modelled from the spec: "Trip conditions, evaluated before every
    candidate execution and after every fill: per-market open position
    exceeds configured cap; total open position across all markets exceeds
    cap; daily realized P&L falls below the configured floor; consecutive
    execution errors reach a configured threshold". The first condition
    that holds gives the reason. *)
Definition fill_trip_reason (b : breaker) : option string :=
  if map_fold (fun _ v acc => acc || (v >? max_position_per_market b)) false (positions b)
  then Some "Max position per market exceeded"
  else if total_position b >? max_total_position b then Some "Max total position exceeded"
  else if daily_pnl_cents b <? - max_daily_loss b * 100 then Some "Max daily loss exceeded"
  else if consecutive_errors b >=? max_consecutive_errors b then Some "Max consecutive errors"
  else None.

(** Modelled from the spec: a fill is applied, then the trip conditions are
    evaluated; an Armed breaker whose conditions hold goes to Halted. *)
Definition record_fill (b : breaker) (market_id contracts pnl_cents : Z) : breaker :=
  let b1 := apply_fill b market_id contracts pnl_cents in
  if halted b1 then b1
  else match fill_trip_reason b1 with
       | Some reason => trip b1 reason
       | None => b1
       end.

Inductive event :=
  | CanExecute (market_id contracts : Z)
  | Fill (market_id contracts pnl_cents : Z).

(** A run of events, with the answers of the [can_execute] calls. *)
Fixpoint run (b : breaker) (evs : list event) : breaker * list bool :=
  match evs with
  | [] => (b, [])
  | CanExecute m c :: rest =>
      let '(ok, b1) := can_execute b m c in
      let '(b2, oks) := run b1 rest in (b2, ok :: oks)
  | Fill m c p :: rest => run (record_fill b m c p) rest
  end.

End Breaker.

(** ** Python floats

    A Python [float] is an IEEE 754 binary64 number; [+], [-] and the
    parsing of a decimal literal give the exact result rounded to the
    nearest double, ties to the even significand, and [<] compares exact
    values. A finite double is [fnum * 2 ^ fexp] with [|fnum| < 2 ^ 53];
    results are rounded to 53 significant bits, or to a multiple of
    [2 ^ -1074] below the normal range. Results beyond the largest double
    (about [1.8e308]), which Python turns into [inf], are not represented:
    the detector below works on prices and thresholds of a few dollars. *)

Module PyFloat.

Record float := mkF { fnum : Z; fexp : Z }.

(** [floor(log2(p / q))] for [p, q > 0]. *)
Definition floor_log2_q (p q : Z) : Z :=
  let k := Z.log2 p - Z.log2 q in
  if p * 2 ^ (Z.max 0 (- k)) <? q * 2 ^ (Z.max 0 k) then k - 1 else k.

(** The double nearest to [p / q], for [p, q > 0]. *)
Definition round_pos (p q : Z) : float :=
  let e := Z.max (floor_log2_q p q - 52) (-1074) in
  let n := p * 2 ^ (Z.max 0 (- e)) in
  let d := q * 2 ^ (Z.max 0 e) in
  let r := n / d in
  let rem := n mod d in
  let m := if 2 * rem <? d then r
           else if d <? 2 * rem then r + 1
           else if Z.even r then r else r + 1 in
  mkF m e.

(** The double nearest to [p / q], for [q > 0]. *)
Definition round (p q : Z) : float :=
  if p =? 0 then mkF 0 0
  else if 0 <? p then round_pos p q
  else let f := round_pos (- p) q in mkF (- fnum f) (fexp f).

(** [x + y] *)
Definition add (x y : float) : float :=
  let e := Z.min (fexp x) (fexp y) in
  let s := fnum x * 2 ^ (fexp x - e) + fnum y * 2 ^ (fexp y - e) in
  if 0 <=? e then round (s * 2 ^ e) 1 else round s (2 ^ (- e)).

Definition opp (x : float) : float := mkF (- fnum x) (fexp x).

(** [x - y] *)
Definition sub (x y : float) : float := add x (opp y).

(** [x < y] *)
Definition ltb (x y : float) : bool :=
  let e := Z.min (fexp x) (fexp y) in
  fnum x * 2 ^ (fexp x - e) <? fnum y * 2 ^ (fexp y - e).

(** The literal with decimal digits [digits] and [places] digits after the
    point: [of_literal 6 2] is [0.06], [of_literal 100 2] is [1.00]. *)
Definition of_literal (digits places : Z) : float := round digits (10 ^ places).

End PyFloat.

(** ** Opportunity detection

    [detect_single_condition_arbitrage] of the strategy notes. Prices and
    [min_profit] are Python floats in dollars and [1.00] is a float literal;
    [min_profit] and [max_capital] are free names of the function, so they
    are section variables. [liquidity] and [max_capital] are contract
    counts, and [min] of two numbers is exact. The long branch builds
    [{'type': 'buy_both', 'position_size': ..., 'expected_profit': ...}];
    the model keeps the decision and [position_size] ([expected_profit]
    reads the unbound name [position_size]). The short branch's fields are
    elided in the notes ([...]). *)

Module Detector.

Inductive opportunity :=
  | BuyBoth (position_size : Z)
  | SellBoth.

Section Detect.
Variable min_profit : PyFloat.float.
Variable max_capital : Z.

Definition detect_single_condition_arbitrage (yes_price no_price : PyFloat.float) (liquidity : Z)
  : option opportunity :=
  let sum_price := PyFloat.add yes_price no_price in
  if PyFloat.ltb sum_price (PyFloat.sub (PyFloat.of_literal 100 2) min_profit)
  then Some (BuyBoth (Z.min liquidity max_capital))
  else if PyFloat.ltb (PyFloat.add (PyFloat.of_literal 100 2) min_profit) sum_price
  then Some SellBoth
  else None.

End Detect.

(** [MIN_ARB_SPREAD = 15  # cents] *)
Definition MIN_ARB_SPREAD : Z := 15.

(** [if profit_cents < MIN_ARB_SPREAD: return None  # Skip] *)
Definition arb_spread_gate (profit_cents : Z) : option Z :=
  if profit_cents <? MIN_ARB_SPREAD then None else Some profit_cents.

End Detector.

(** ** Partial-fill reconciliation and the ledger *)

Module Reconcile.

Record leg_result := mk_leg { filled : Z; cost : Z }.

Record exec_result := mk_exec { matched : Z; success : bool; actual_profit : Z }.

(** [let matched = yes_filled.min(no_filled);]
    [let success = matched > 0;]
    [let actual_profit = matched * 100 - (yes_cost + no_cost);] *)
Definition reconcile (yes no : leg_result) : exec_result :=
  let matched := Z.min (filled yes) (filled no) in
  let success := matched >? 0 in
  let actual_profit := matched * 100 - (cost yes + cost no) in
  mk_exec matched success actual_profit.

Inductive side := Yes | No.

(** Modelled from the spec: the Position & P&L Ledger. "Position: per
    MatchedMarket, signed contract count per side (YES/NO), cumulative cost
    basis. Mutated only by the Ledger upon confirmed fills";
    [recordFill(marketId, venue, side, price, size)]. *)
Record ledger := mk_ledger {
  yes_position : gmap Z Z;
  no_position : gmap Z Z;
  cost_basis : gmap Z Z
}.

Definition ledger_empty : ledger := mk_ledger ∅ ∅ ∅.

Definition pos (g : gmap Z Z) (market_id : Z) : Z := default 0 (g !! market_id).

Definition recordFill (l : ledger) (market_id : Z) (sd : side) (price size : Z) : ledger :=
  let basis := <[market_id := pos (cost_basis l) market_id + price * size]> (cost_basis l) in
  match sd with
  | Yes => mk_ledger (<[market_id := pos (yes_position l) market_id + size]> (yes_position l))
                     (no_position l) basis
  | No => mk_ledger (yes_position l)
                    (<[market_id := pos (no_position l) market_id + size]> (no_position l)) basis
  end.

(** Modelled from the spec: "P&L is computed strictly from confirmed
    fills"; each leg's confirmed fill, if any, is recorded at its own size,
    after the reconciliation of the pair. *)
Definition record_leg (l : ledger) (market_id : Z) (sd : side) (price : Z) (r : leg_result) : ledger :=
  if filled r >? 0 then recordFill l market_id sd price (filled r) else l.

Definition settle (l : ledger) (market_id yes_price no_price : Z) (yes no : leg_result)
  : exec_result * ledger :=
  (reconcile yes no,
   record_leg (record_leg l market_id Yes yes_price yes) market_id No no_price no).

End Reconcile.

(** ** Orderbook state store *)

Module Orderbook.

(** Modelled from the spec: [OrderbookSnapshot] "best YES ask price, best NO
    ask price, available size at each, a monotonic sequence/version
    number", and the store keyed by (venue, market). *)
Record snapshot := mk_snapshot {
  yes_ask : Z; no_ask : Z; yes_size : Z; no_size : Z; version : Z
}.

Record store := mk_store {
  books : gmap (Z * Z) snapshot;
  stale_dropped : nat           (** the metric of discarded updates *)
}.

Inductive outcome := Accepted | Stale.

(** Modelled from the spec: "[update(venue, marketId, snapshot)] accepted
    only if [snapshot.version > current.version]; stale or equal versions
    are silently discarded and counted as a metric, never treated as an
    error". A key with no snapshot yet accepts its first one. *)
Definition update (st : store) (venue market_id : Z) (snap : snapshot) : outcome * store :=
  match books st !! (venue, market_id) with
  | Some cur =>
      if version cur <? version snap
      then (Accepted, mk_store (<[(venue, market_id) := snap]> (books st)) (stale_dropped st))
      else (Stale, mk_store (books st) (S (stale_dropped st)))
  | None => (Accepted, mk_store (<[(venue, market_id) := snap]> (books st)) (stale_dropped st))
  end.

End Orderbook.

(** ** Packed orderbook word: [pack_orderbook] of [types.rs]

    Layout [[yes_ask:16][no_ask:16][yes_size:16][no_size:16]]; the four
    fields are 16-bit values widened with [as u64], and [<<] on [u64] drops
    the bits shifted past bit 63. *)

Module Packed.

Definition u64 (x : Z) : Z := Z.land x (Z.ones 64).

(** [((yes_ask as u64) << 48) | ((no_ask as u64) << 32) |
     ((yes_size as u64) << 16) | (no_size as u64)] *)
Definition pack_orderbook (yes_ask no_ask yes_size no_size : Z) : Z :=
  Z.lor (Z.lor (Z.lor (u64 (Z.shiftl yes_ask 48)) (u64 (Z.shiftl no_ask 32)))
               (u64 (Z.shiftl yes_size 16)))
        no_size.

(** A 16-bit field read back as [(packed >> k) as u16]. *)
Definition field (packed k : Z) : Z := Z.land (Z.shiftr packed k) (Z.ones 16).

Definition is_u16 (x : Z) : Prop := 0 <= x < 2 ^ 16.

End Packed.

(** * Proofs *)

(** ** Python indexing within range *)

Lemma py_index_in (len i : Z) : 0 <= i < len -> py_index len i = Some (Z.to_nat i).
Proof.
  intros H. unfold py_index.
  destruct ((0 <=? i) && (i <? len)) eqn:E; [reflexivity|].
  apply andb_false_iff in E as [E|E]; [apply Z.leb_gt in E|apply Z.ltb_ge in E]; lia.
Qed.

Lemma py_index_above (len i : Z) : 0 <= len -> len <= i -> py_index len i = None.
Proof.
  intros H0 H. unfold py_index.
  destruct ((0 <=? i) && (i <? len)) eqn:E.
  { apply andb_true_iff in E as [_ E]. apply Z.ltb_lt in E. lia. }
  destruct ((- len <=? i) && (i <? 0)) eqn:F; [|reflexivity].
  apply andb_true_iff in F as [_ F]. apply Z.ltb_lt in F. lia.
Qed.

Lemma py_get_in (l : list Z) (i : Z) :
  0 <= i < Z.of_nat (length l) -> py_get l i = l !! Z.to_nat i.
Proof. intros H. unfold py_get. rewrite py_index_in by exact H. reflexivity. Qed.

Lemma py_set_in (l : list Z) (i v : Z) :
  0 <= i < Z.of_nat (length l) -> py_set l i v = Some (<[Z.to_nat i := v]> l).
Proof. intros H. unfold py_set. rewrite py_index_in by exact H. reflexivity. Qed.

(** ** Single-bit masks *)

Lemma testbit_mask (b n : Z) : 0 <= b -> 0 <= n -> Z.testbit (Z.shiftl 1 b) n = (b =? n).
Proof. intros Hb Hn. rewrite Z.shiftl_1_l. apply Z.pow2_bits_eqb. exact Hb. Qed.

Lemma land_mask_zero (v b : Z) : 0 <= b -> (Z.land v (Z.shiftl 1 b) =? 0) = negb (Z.testbit v b).
Proof.
  intros Hb. destruct (Z.testbit v b) eqn:T; simpl.
  - apply Z.eqb_neq. intros E.
    assert (Z.testbit (Z.land v (Z.shiftl 1 b)) b = false) as F by (rewrite E; apply Z.bits_0).
    rewrite Z.land_spec, testbit_mask, T, Z.eqb_refl in F by lia. discriminate.
  - apply Z.eqb_eq. apply Z.bits_inj'. intros n Hn.
    rewrite Z.land_spec, testbit_mask, Z.bits_0 by lia.
    destruct (Z.eqb_spec b n); [subst; rewrite T|]; destruct (Z.testbit v n); reflexivity.
Qed.

Lemma testbit_set (v b n : Z) : 0 <= b -> 0 <= n ->
  Z.testbit (Z.lor v (Z.shiftl 1 b)) n = Z.testbit v n || (b =? n).
Proof. intros. rewrite Z.lor_spec, testbit_mask by lia. reflexivity. Qed.

Lemma testbit_clear (v b n : Z) : 0 <= b -> 0 <= n ->
  Z.testbit (Z.land v (Z.lnot (Z.shiftl 1 b))) n = Z.testbit v n && negb (b =? n).
Proof. intros. rewrite Z.land_spec, Z.lnot_spec, testbit_mask by lia. reflexivity. Qed.

(** Two distinct ids in range differ in their slot or in their bit. *)
Lemma slot_bit_inj (m m' : Z) :
  m / 64 = m' / 64 -> m mod 64 = m' mod 64 -> m = m'.
Proof.
  intros H1 H2. rewrite (Z.div_mod m 64), (Z.div_mod m' 64) by lia. congruence.
Qed.

(** ** In-flight deduplication *)

Section DedupeProofs.
Import Dedupe.

Lemma slot_range (m : Z) : 0 <= m < 512 -> 0 <= m / 64 < 8.
Proof. intros H. split; [apply Z.div_pos|apply Z.div_lt_upper_bound]; lia. Qed.

Lemma slot_in_range (s : dedupe) (m : Z) :
  wf s -> 0 <= m < 512 -> 0 <= m / 64 < Z.of_nat (length (bitmask s)).
Proof. intros W H. rewrite W. pose proof (slot_range m H). lia. Qed.

Lemma slot_lookup (s : dedupe) (m : Z) :
  wf s -> 0 <= m < 512 -> exists v, bitmask s !! Z.to_nat (m / 64) = Some v.
Proof.
  intros W H. apply lookup_lt_is_Some_2. pose proof (slot_in_range s m W H). lia.
Qed.

Lemma claimed_at (s : dedupe) (m v : Z) :
  wf s -> 0 <= m < 512 -> bitmask s !! Z.to_nat (m / 64) = Some v ->
  claimed s m = Z.testbit v (m mod 64).
Proof.
  intros W H L. unfold claimed. rewrite py_get_in by (apply slot_in_range; assumption).
  rewrite L. reflexivity.
Qed.

(** Writing a slot changes the bits of that slot's ids only. *)
Lemma claimed_update (s : dedupe) (n m v w : Z) :
  wf s -> 0 <= m < 512 -> bitmask s !! Z.to_nat (m / 64) = Some v ->
  forall m', 0 <= m' < 512 ->
  claimed (mk_dedupe n (<[Z.to_nat (m / 64) := w]> (bitmask s))) m' =
  if m' / 64 =? m / 64 then Z.testbit w (m' mod 64) else claimed s m'.
Proof.
  intros W H L m' H'.
  pose proof (slot_range m H). pose proof (slot_range m' H').
  unfold claimed at 1; simpl.
  rewrite py_get_in by (rewrite length_insert; apply slot_in_range; assumption).
  destruct (Z.eqb_spec (m' / 64) (m / 64)) as [E|E].
  - rewrite E, list_lookup_insert_eq; [reflexivity|].
    pose proof (slot_in_range s m W H). lia.
  - rewrite list_lookup_insert_ne by lia.
    unfold claimed. rewrite py_get_in by (apply slot_in_range; assumption). reflexivity.
Qed.

Lemma wf_update (s : dedupe) (n : Z) (i : nat) (w : Z) :
  wf s -> wf (mk_dedupe n (<[i := w]> (bitmask s))).
Proof. unfold wf; simpl. rewrite length_insert. auto. Qed.

Lemma mod64_range (m : Z) : 0 <= m mod 64.
Proof. apply Z.mod_pos_bound. lia. Qed.

Lemma same_slot_other_bit (m m' : Z) :
  m' <> m -> m' / 64 = m / 64 -> (m mod 64 =? m' mod 64) = false.
Proof.
  intros N E. apply Z.eqb_neq. intros B. apply N. apply slot_bit_inj; congruence.
Qed.

Lemma try_claim_taken (s : dedupe) (m : Z) :
  wf s -> 0 <= m < 512 -> claimed s m = true -> try_claim s m = Some (false, s).
Proof.
  intros W H C. destruct (slot_lookup s m W H) as [v L].
  rewrite (claimed_at s m v W H L) in C.
  unfold try_claim, mask_of.
  rewrite py_get_in by (apply slot_in_range; assumption). rewrite L.
  rewrite land_mask_zero by apply mod64_range. rewrite C. reflexivity.
Qed.

Lemma try_claim_free (s : dedupe) (m : Z) :
  wf s -> 0 <= m < 512 -> claimed s m = false ->
  exists s', try_claim s m = Some (true, s') /\ wf s' /\ claimed s' m = true /\
    (forall m', 0 <= m' < 512 -> m' <> m -> claimed s' m' = claimed s m').
Proof.
  intros W H C. destruct (slot_lookup s m W H) as [v L].
  rewrite (claimed_at s m v W H L) in C.
  unfold try_claim, mask_of.
  rewrite py_get_in by (apply slot_in_range; assumption). rewrite L.
  rewrite land_mask_zero by apply mod64_range. rewrite C. simpl.
  rewrite py_set_in by (apply slot_in_range; assumption).
  eexists; split; [reflexivity|]. split; [apply wf_update; exact W|]. split.
  - rewrite (claimed_update s _ m v _ W H L m H), Z.eqb_refl, testbit_set
      by (try apply mod64_range). rewrite Z.eqb_refl. apply orb_true_r.
  - intros m' H' N. rewrite (claimed_update s _ m v _ W H L m' H').
    destruct (Z.eqb_spec (m' / 64) (m / 64)) as [E|E]; [|reflexivity].
    rewrite testbit_set, same_slot_other_bit, orb_false_r by (try apply mod64_range; assumption).
    rewrite (claimed_at s m' v W H'); [reflexivity|]. rewrite E. exact L.
Qed.

Lemma release_spec (s : dedupe) (m : Z) :
  wf s -> 0 <= m < 512 ->
  exists s', release s m = Some s' /\ wf s' /\ claimed s' m = false /\
    (forall m', 0 <= m' < 512 -> m' <> m -> claimed s' m' = claimed s m').
Proof.
  intros W H. destruct (slot_lookup s m W H) as [v L].
  unfold release, mask_of.
  rewrite py_get_in by (apply slot_in_range; assumption). rewrite L.
  rewrite py_set_in by (apply slot_in_range; assumption).
  eexists; split; [reflexivity|]. split; [apply wf_update; exact W|]. split.
  - rewrite (claimed_update s _ m v _ W H L m H), Z.eqb_refl, testbit_clear
      by (try apply mod64_range). rewrite Z.eqb_refl. apply andb_false_r.
  - intros m' H' N. rewrite (claimed_update s _ m v _ W H L m' H').
    destruct (Z.eqb_spec (m' / 64) (m / 64)) as [E|E]; [|reflexivity].
    rewrite testbit_clear, same_slot_other_bit by (try apply mod64_range; assumption).
    rewrite andb_true_r.
    rewrite (claimed_at s m' v W H'); [reflexivity|]. rewrite E. exact L.
Qed.

(** A run of in-range calls that never releases [m]: it raises nothing and
    the [try_claim(m)] calls fail from the first success on. *)
Lemma run_claims (s : dedupe) (m : Z) (ops : list op) :
  wf s -> 0 <= m < 512 -> ops_ok m ops ->
  exists s' tr, run s ops = Some (s', tr) /\ wf s' /\
    claim_results m tr =
      if claimed s m then repeat false (count_claims m ops)
      else first_only (count_claims m ops).
Proof.
  intros W H Hops. revert s W.
  induction Hops as [|o ops [Ho No] Hops IH]; intros s W.
  { exists s, []. repeat split; [exact W|]. destruct (claimed s m); reflexivity. }
  destruct o as [m'|m']; simpl in Ho.
  - destruct (Z.eqb_spec m' m) as [E|E].
    + subst m'. destruct (claimed s m) eqn:C.
      * destruct (IH s W) as (s2 & tr & R & W2 & T).
        exists s2, ((TryClaim m, Some false) :: tr).
        simpl. rewrite try_claim_taken by assumption. rewrite R, Z.eqb_refl, T, C.
        repeat split; assumption.
      * destruct (try_claim_free s m W H C) as (s1 & Tc & W1 & C1 & _).
        destruct (IH s1 W1) as (s2 & tr & R & W2 & T).
        exists s2, ((TryClaim m, Some true) :: tr).
        simpl. rewrite Tc, R, Z.eqb_refl, T, C1.
        repeat split; assumption.
    + assert (Hm : (m' =? m) = false) by (apply Z.eqb_neq; exact E).
      destruct (claimed s m') eqn:C.
      * destruct (IH s W) as (s2 & tr & R & W2 & T).
        exists s2, ((TryClaim m', Some false) :: tr).
        simpl. rewrite try_claim_taken by assumption. rewrite R, Hm, T.
        repeat split; assumption.
      * destruct (try_claim_free s m' W Ho C) as (s1 & Tc & W1 & _ & Keep).
        destruct (IH s1 W1) as (s2 & tr & R & W2 & T).
        exists s2, ((TryClaim m', Some true) :: tr).
        simpl. rewrite Tc, R, Hm, T, (Keep m H (not_eq_sym E)).
        repeat split; assumption.
  - assert (E : m' <> m) by (intros ->; apply No; reflexivity).
    destruct (release_spec s m' W Ho) as (s1 & Rl & W1 & _ & Keep).
    destruct (IH s1 W1) as (s2 & tr & R & W2 & T).
    exists s2, ((Release m', None) :: tr).
    simpl. rewrite Rl, R, T, (Keep m H (not_eq_sym E)).
    repeat split; assumption.
Qed.

Lemma init_wf : wf init.
Proof. reflexivity. Qed.

Lemma init_free (m : Z) : 0 <= m < 512 -> claimed init m = false.
Proof.
  intros H. destruct (slot_lookup init m init_wf H) as [v L].
  rewrite (claimed_at init m v init_wf H L).
  apply list_elem_of_lookup_2, list_elem_of_In, repeat_spec in L. subst v. apply Z.testbit_0_l.
Qed.

End DedupeProofs.

(** Claim C1. For a market id in the bitmask's range 0..511 and any run of
    [try_claim] and [release] calls on in-range ids that does not release
    that market, starting from the initial object or from any state where
    the market is free: the first [try_claim] of the market returns [True]
    and every later one returns [False]; and [release] of the market leaves
    it free, so that it can be claimed again. *)
Theorem in_flight_first_claim_only (m : Z) :
  0 <= m < 512 ->
  (forall ops, Dedupe.ops_ok m ops -> Dedupe.first_claim_only Dedupe.init m ops) /\
  (forall s ops, Dedupe.wf s -> Dedupe.claimed s m = false -> Dedupe.ops_ok m ops ->
     Dedupe.first_claim_only s m ops) /\
  (forall s, Dedupe.wf s ->
     exists s' s'', Dedupe.release s m = Some s' /\ Dedupe.try_claim s' m = Some (true, s'')).
Proof.
  intros H.
  assert (Gen : forall s ops, Dedupe.wf s -> Dedupe.claimed s m = false -> Dedupe.ops_ok m ops ->
     Dedupe.first_claim_only s m ops).
  { intros s ops W C Hops. destruct (run_claims s m ops W H Hops) as (s' & tr & R & _ & T).
    exists s', tr. split; [exact R|]. rewrite T, C. reflexivity. }
  split; [|split; [exact Gen|]].
  - intros ops Hops. apply Gen; [apply init_wf|apply init_free; exact H|exact Hops].
  - intros s W. destruct (release_spec s m W H) as (s1 & Rl & W1 & C1 & _).
    destruct (try_claim_free s1 m W1 H C1) as (s2 & Tc & _).
    exists s1, s2. split; assumption.
Qed.

(** Claim C1, as stated for every market id: it fails at id 512, where the
    Python object raises [IndexError] on the first [try_claim] and the Rust
    variant lets every claim through. *)
Lemma in_flight_first_claim_only_cex :
  ~ Dedupe.first_claim_only Dedupe.init 512 [Dedupe.TryClaim 512; Dedupe.TryClaim 512] /\
  Dedupe.rust_claim Dedupe.rust_init 512 = Some Dedupe.rust_init.
Proof.
  split; [|reflexivity].
  intros (s' & tr & R & _). vm_compute in R. discriminate.
Qed.

Lemma in_flight_first_claim_only_witness :
  (0 <= 5 < 512) /\
  Dedupe.first_claim_only Dedupe.init 5
    [Dedupe.TryClaim 5; Dedupe.TryClaim 70; Dedupe.TryClaim 5; Dedupe.Release 70; Dedupe.TryClaim 5].
Proof.
  split; [lia|].
  assert (H : 0 <= 5 < 512) by lia.
  apply (proj1 (in_flight_first_claim_only 5 H)).
  repeat constructor; try lia; discriminate.
Defined.

(** Claim C9. With the bitmask sized for 512 markets, [try_claim] and
    [release] run on every id in 0..511 and raise [IndexError] on every id
    of 512 or more (the slot [market_id // 64] is past the 8 slots); the
    Rust variant skips the check for such ids, so any number of claims of
    one of them succeed: the one-in-flight guarantee stops at 511. *)
Theorem in_flight_range (s : Dedupe.dedupe) (m : Z) :
  Dedupe.wf s ->
  (0 <= m < 512 ->
     (exists r, Dedupe.try_claim s m = Some r) /\ (exists s', Dedupe.release s m = Some s')) /\
  (512 <= m -> Dedupe.try_claim s m = None /\ Dedupe.release s m = None) /\
  (forall l, 512 <= m -> Dedupe.rust_claim l m = Some l).
Proof.
  intros W. split; [|split].
  - intros H. split.
    + destruct (Dedupe.claimed s m) eqn:C.
      * eexists. apply try_claim_taken; assumption.
      * destruct (try_claim_free s m W H C) as (s' & T & _). eexists. exact T.
    + destruct (release_spec s m W H) as (s' & R & _). eexists. exact R.
  - intros H.
    assert (N : py_get (Dedupe.bitmask s) (m / 64) = None).
    { unfold py_get. rewrite W.
      assert (8 <= m / 64) by (apply Z.div_le_lower_bound; lia).
      rewrite py_index_above by lia. reflexivity. }
    unfold Dedupe.try_claim, Dedupe.release. rewrite N. split; reflexivity.
  - intros l H. unfold Dedupe.rust_claim.
    destruct (Z.ltb_spec m 512); [lia|reflexivity].
Qed.

Lemma in_flight_range_witness :
  Dedupe.wf Dedupe.init /\ Dedupe.try_claim Dedupe.init 600 = None /\
  Dedupe.rust_claim Dedupe.rust_init 600 = Some Dedupe.rust_init.
Proof.
  split; [reflexivity|].
  destruct (in_flight_range Dedupe.init 600 eq_refl) as (_ & Hi & Hr).
  split; [apply Hi; lia|apply Hr; lia].
Defined.

(** ** Fee model *)

Lemma fee_table_all_ok :
  forallb Fee.table_entry_ok (map Z.of_nat (seq 0 101)) = true.
Proof. vm_compute. reflexivity. Qed.

Lemma fee_table_length : length Fee.KALSHI_FEE_TABLE = 101%nat.
Proof. vm_compute. reflexivity. Qed.

(** Claim C3. For every integer price [p] in 0..100 the table entry
    [KALSHI_FEE_TABLE[p]] exists, equals [kalshi_fee_cents(p)], and is the
    ceiling of [7 * p * (100 - p) / 10000]. *)
Theorem fee_table_closed_form (p : Z) :
  0 <= p <= 100 ->
  exists v, py_get Fee.KALSHI_FEE_TABLE p = Some v /\
    v = Fee.kalshi_fee_cents p /\ Fee.is_ceil_fee p v.
Proof.
  intros H.
  assert (Ok : Fee.table_entry_ok p = true).
  { apply (proj1 (forallb_forall _ _) fee_table_all_ok).
    apply in_map_iff. exists (Z.to_nat p). split; [lia|].
    apply in_seq. lia. }
  unfold Fee.table_entry_ok in Ok.
  destruct (py_get Fee.KALSHI_FEE_TABLE p) as [v|]; [|discriminate].
  apply andb_true_iff in Ok as [E C]. apply Z.eqb_eq in E.
  unfold Fee.is_ceil_feeb in C. apply andb_true_iff in C as [C1 C2].
  apply Z.ltb_lt in C1. apply Z.leb_le in C2.
  exists v. repeat split; assumption.
Qed.

Lemma fee_table_closed_form_witness :
  (0 <= 40 <= 100) /\ py_get Fee.KALSHI_FEE_TABLE 40 = Some 2 /\ Fee.kalshi_fee_cents 40 = 2.
Proof.
  assert (H : 0 <= 40 <= 100) by lia. split; [exact H|].
  destruct (fee_table_closed_form 40 H) as (v & G & E & C).
  unfold Fee.is_ceil_fee in C. assert (V : v = 2) by lia.
  rewrite V in G, E. split; [exact G|symmetry; exact E].
Defined.

(** Claim C10. [kalshi_fee_cents] is a total function of the price; it is 0
    at price 0 and at every price above 100. *)
Theorem kalshi_fee_zero_outside :
  Fee.kalshi_fee_cents 0 = 0 /\ (forall p, 100 < p -> Fee.kalshi_fee_cents p = 0).
Proof.
  split; [reflexivity|].
  intros p H. unfold Fee.kalshi_fee_cents.
  rewrite Z.gtb_ltb. destruct (Z.ltb_spec 100 p); [reflexivity|lia].
Qed.

Lemma kalshi_fee_zero_outside_witness :
  Fee.kalshi_fee_cents 0 = 0 /\ Fee.kalshi_fee_cents 250 = 0.
Proof.
  destruct kalshi_fee_zero_outside as [H0 H]. split; [exact H0|apply H; lia].
Defined.


(** ** Circuit breaker *)

Section BreakerProofs.
Import Breaker.

Lemma record_fill_halted (b : breaker) (m c p : Z) :
  halted b = true -> halted (record_fill b m c p) = true.
Proof.
  intros H. unfold record_fill.
  change (halted (apply_fill b m c p)) with (halted b). rewrite H. exact H.
Qed.

Lemma can_execute_halted (b : breaker) (m c : Z) :
  halted b = true -> can_execute b m c = (false, b).
Proof. intros H. unfold can_execute. rewrite H. reflexivity. Qed.

(** No event clears [halted]: a halted breaker answers [False] to every
    later call. *)
Lemma run_halted (b : breaker) (evs : list event) :
  halted b = true ->
  halted (fst (run b evs)) = true /\ Forall (fun ok => ok = false) (snd (run b evs)).
Proof.
  revert b. induction evs as [|[m c|m c p] evs IH]; intros b H; simpl.
  - split; [exact H|constructor].
  - rewrite can_execute_halted by exact H.
    destruct (run b evs) as [b2 oks] eqn:R. simpl.
    destruct (IH b H) as [H2 F]. rewrite R in H2, F. simpl in H2, F.
    split; [exact H2|constructor; [reflexivity|exact F]].
  - apply IH. apply record_fill_halted. exact H.
Qed.

Lemma fill_trip_reason_loss (b : breaker) :
  daily_pnl_cents b < - max_daily_loss b * 100 -> fill_trip_reason b <> None.
Proof.
  intros H. unfold fill_trip_reason.
  destruct (map_fold _ _ _); [discriminate|].
  destruct (_ >? _); [discriminate|].
  destruct (Z.ltb_spec (daily_pnl_cents b) (- max_daily_loss b * 100)); [discriminate|lia].
Qed.

(** After a fill, a daily P&L below the floor comes with [halted]. *)
Lemma record_fill_floor (b : breaker) (m c p : Z) :
  daily_pnl_cents (record_fill b m c p) < - max_daily_loss (record_fill b m c p) * 100 ->
  halted (record_fill b m c p) = true.
Proof.
  unfold record_fill. set (b1 := apply_fill b m c p).
  destruct (halted b1) eqn:Hh; [intros _; exact Hh|].
  destruct (fill_trip_reason b1) as [r|] eqn:R; [intros _; reflexivity|].
  intros L. exfalso. exact (fill_trip_reason_loss b1 L R).
Qed.

(** [can_execute] keeps "below the floor implies halted". *)
Lemma can_execute_floor (b : breaker) (m c : Z) :
  (daily_pnl_cents b < - max_daily_loss b * 100 -> halted b = true) ->
  daily_pnl_cents (snd (can_execute b m c)) < - max_daily_loss (snd (can_execute b m c)) * 100 ->
  halted (snd (can_execute b m c)) = true.
Proof.
  intros I. unfold can_execute.
  destruct (halted b) eqn:Hh; [intros _; exact Hh|].
  destruct (_ >? _); [|destruct (_ >? _); [|destruct (_ <? _)]]; simpl;
  intros L; first [reflexivity | discriminate (I L)].
Qed.

Lemma run_floor (b : breaker) (evs : list event) :
  (daily_pnl_cents b < - max_daily_loss b * 100 -> halted b = true) ->
  daily_pnl_cents (fst (run b evs)) < - max_daily_loss (fst (run b evs)) * 100 ->
  halted (fst (run b evs)) = true.
Proof.
  revert b. induction evs as [|[m c|m c p] evs IH]; intros b I; simpl.
  - exact I.
  - pose proof (can_execute_floor b m c I) as I1.
    destruct (can_execute b m c) as [ok b1]. simpl in I1.
    specialize (IH b1 I1). destruct (run b1 evs) as [b2 oks]. exact IH.
  - apply IH. apply record_fill_floor.
Qed.

Lemma init_above_floor :
  daily_pnl_cents init < - max_daily_loss init * 100 -> halted init = true.
Proof. simpl. lia. Qed.

End BreakerProofs.

(** Claim C5. A halted breaker answers [False] to [can_execute] for every
    market id and every contract count, and the call changes nothing. *)
Theorem halted_can_execute_false (b : Breaker.breaker) :
  Breaker.halted b = true -> forall m c, Breaker.can_execute b m c = (false, b).
Proof. intros H m c. apply can_execute_halted. exact H. Qed.

Lemma halted_can_execute_false_witness :
  Breaker.halted (Breaker.trip Breaker.init "test") = true /\
  Breaker.can_execute (Breaker.trip Breaker.init "test") 3 1 = (false, Breaker.trip Breaker.init "test").
Proof.
  split; [reflexivity|]. apply halted_can_execute_false. reflexivity.
Defined.

(** Claim C4. Whatever calls and fills have run since [__init__], once
    the daily realized P&L is strictly below the floor [-max_daily_loss *
    100] cents the breaker is already halted (the fill that crossed the
    floor tripped it), and every later [can_execute] answers [False],
    whatever fills follow, gains included. *)
Theorem daily_loss_halts_before_next_execution (pre post : list Breaker.event) :
  let b := fst (Breaker.run Breaker.init pre) in
  Breaker.daily_pnl_cents b < - Breaker.max_daily_loss b * 100 ->
  Breaker.halted b = true /\ Forall (fun ok => ok = false) (snd (Breaker.run b post)).
Proof.
  intros b L.
  assert (H : Breaker.halted b = true)
    by exact (run_floor Breaker.init pre init_above_floor L).
  split; [exact H|]. apply (run_halted b post H).
Qed.

Lemma daily_loss_halts_before_next_execution_witness :
  let b := fst (Breaker.run Breaker.init [Breaker.Fill 7 10 (-3000); Breaker.Fill 7 (-10) (-2001)]) in
  Breaker.daily_pnl_cents b < - Breaker.max_daily_loss b * 100 /\
  Breaker.halted b = true /\
  Forall (fun ok => ok = false)
    (snd (Breaker.run b [Breaker.CanExecute 7 1; Breaker.Fill 7 0 5002; Breaker.CanExecute 7 1])).
Proof.
  intros b.
  assert (L : Breaker.daily_pnl_cents b < - Breaker.max_daily_loss b * 100)
    by (vm_compute; reflexivity).
  split; [exact L|].
  exact (daily_loss_halts_before_next_execution
           [Breaker.Fill 7 10 (-3000); Breaker.Fill 7 (-10) (-2001)]
           [Breaker.CanExecute 7 1; Breaker.Fill 7 0 5002; Breaker.CanExecute 7 1] L).
Defined.

(** Claim C6, at a concrete breaker: with the consecutive-error counter at
    its threshold (5 of 5) and nothing else against it, [can_execute]
    answers [True]; the counter is never read. *)
Lemma consecutive_errors_not_checked :
  let b := {| Breaker.max_position_per_market := 50000;
              Breaker.max_total_position := 100000;
              Breaker.max_daily_loss := 50;
              Breaker.max_consecutive_errors := 5;
              Breaker.cooldown_secs := 60;
              Breaker.halted := false;
              Breaker.daily_pnl_cents := 0;
              Breaker.positions := ∅;
              Breaker.consecutive_errors := 5;
              Breaker.halt_reason := None |} in
  Breaker.max_consecutive_errors b <= Breaker.consecutive_errors b /\
  Breaker.can_execute b 7 1 = (true, b).
Proof. vm_compute. split; [discriminate|reflexivity]. Qed.

(** ** Opportunity detection *)

Section FloatBounds.
Import PyFloat.

(** Comparing two doubles at any common exponent below both. *)
Lemma ltb_at (x y : float) (e : Z) :
  e <= fexp x -> e <= fexp y ->
  ltb x y = (fnum x * 2 ^ (fexp x - e) <? fnum y * 2 ^ (fexp y - e)).
Proof.
  intros Hx Hy. unfold ltb. set (e0 := Z.min (fexp x) (fexp y)).
  assert (He : e <= e0) by (unfold e0; lia).
  replace (fexp x - e) with ((fexp x - e0) + (e0 - e)) by lia.
  replace (fexp y - e) with ((fexp y - e0) + (e0 - e)) by lia.
  rewrite !Z.pow_add_r by (unfold e0; lia).
  assert (P : 0 < 2 ^ (e0 - e)) by (apply Z.pow_pos_nonneg; lia).
  rewrite !Z.mul_assoc.
  destruct (Z.ltb_spec (fnum x * 2 ^ (fexp x - e0)) (fnum y * 2 ^ (fexp y - e0))) as [L|L];
  symmetry.
  - apply Z.ltb_lt. apply Z.mul_lt_mono_pos_r; assumption.
  - apply Z.ltb_ge. apply Z.mul_le_mono_nonneg_r; lia.
Qed.

(** [fnum x * 2 ^ (fexp x + 60)]: the value of [x] times [2 ^ 60]. *)
Lemma ltb_60 (x y : float) :
  -60 <= fexp x -> -60 <= fexp y ->
  ltb x y = (fnum x * 2 ^ (fexp x + 60) <? fnum y * 2 ^ (fexp y + 60)).
Proof.
  intros Hx Hy. rewrite (ltb_at x y (-60)) by assumption.
  replace (fexp x - -60) with (fexp x + 60) by lia.
  replace (fexp y - -60) with (fexp y + 60) by lia. reflexivity.
Qed.

(** Every sum of two cent literals [0.00 .. 1.00] is within a quarter of a
    cent of the exact sum, and so are [1.00 - m] and [1.00 + m] for a cent
    literal [m] in [0.00 .. 1.00]. *)
Lemma sum_literals_close :
  forallb (fun y => forallb (fun n =>
    let f := add (of_literal y 2) (of_literal n 2) in
    (-60 <=? fexp f) &&
    (4 * Z.abs (100 * (fnum f * 2 ^ (fexp f + 60)) - (y + n) * 2 ^ 60) <=? 2 ^ 60))
    (map Z.of_nat (seq 0 101))) (map Z.of_nat (seq 0 101)) = true.
Proof. vm_compute. reflexivity. Qed.

Lemma buy_threshold_close :
  forallb (fun m =>
    let f := sub (of_literal 100 2) (of_literal m 2) in
    (-60 <=? fexp f) &&
    (4 * Z.abs (100 * (fnum f * 2 ^ (fexp f + 60)) - (100 - m) * 2 ^ 60) <=? 2 ^ 60))
    (map Z.of_nat (seq 0 101)) = true.
Proof. vm_compute. reflexivity. Qed.

Lemma sell_threshold_close :
  forallb (fun m =>
    let f := add (of_literal 100 2) (of_literal m 2) in
    (-60 <=? fexp f) &&
    (4 * Z.abs (100 * (fnum f * 2 ^ (fexp f + 60)) - (100 + m) * 2 ^ 60) <=? 2 ^ 60))
    (map Z.of_nat (seq 0 101)) = true.
Proof. vm_compute. reflexivity. Qed.

Lemma in_cents_range (y : Z) : 0 <= y <= 100 -> In y (map Z.of_nat (seq 0 101)).
Proof.
  intros H. apply in_map_iff. exists (Z.to_nat y). split; [lia|]. apply in_seq. lia.
Qed.

Lemma sum_close (y n : Z) :
  0 <= y <= 100 -> 0 <= n <= 100 ->
  let f := add (of_literal y 2) (of_literal n 2) in
  -60 <= fexp f /\ 4 * Z.abs (100 * (fnum f * 2 ^ (fexp f + 60)) - (y + n) * 2 ^ 60) <= 2 ^ 60.
Proof.
  intros Hy Hn. pose proof sum_literals_close as C.
  rewrite forallb_forall in C. specialize (C y (in_cents_range y Hy)).
  rewrite forallb_forall in C. specialize (C n (in_cents_range n Hn)).
  apply andb_prop in C as [C1 C2]. apply Z.leb_le in C1, C2. split; assumption.
Qed.

Lemma buy_close (m : Z) :
  0 <= m <= 100 ->
  let f := sub (of_literal 100 2) (of_literal m 2) in
  -60 <= fexp f /\ 4 * Z.abs (100 * (fnum f * 2 ^ (fexp f + 60)) - (100 - m) * 2 ^ 60) <= 2 ^ 60.
Proof.
  intros Hm. pose proof buy_threshold_close as C.
  rewrite forallb_forall in C. specialize (C m (in_cents_range m Hm)).
  apply andb_prop in C as [C1 C2]. apply Z.leb_le in C1, C2. split; assumption.
Qed.

Lemma sell_close (m : Z) :
  0 <= m <= 100 ->
  let f := add (of_literal 100 2) (of_literal m 2) in
  -60 <= fexp f /\ 4 * Z.abs (100 * (fnum f * 2 ^ (fexp f + 60)) - (100 + m) * 2 ^ 60) <= 2 ^ 60.
Proof.
  intros Hm. pose proof sell_threshold_close as C.
  rewrite forallb_forall in C. specialize (C m (in_cents_range m Hm)).
  apply andb_prop in C as [C1 C2]. apply Z.leb_le in C1, C2. split; assumption.
Qed.

(** On cent literals the float test [yes + no < 1.00 - min_profit] agrees
    with the exact one off the boundary [y + n = 100 - m]. *)
Lemma buy_test_cents (m y n : Z) :
  0 <= m <= 100 -> 0 <= y <= 100 -> 0 <= n <= 100 -> y + n <> 100 - m ->
  ltb (add (of_literal y 2) (of_literal n 2)) (sub (of_literal 100 2) (of_literal m 2))
  = (y + n <? 100 - m).
Proof.
  intros Hm Hy Hn Ne.
  destruct (sum_close y n Hy Hn) as [E1 B1]. destruct (buy_close m Hm) as [E2 B2].
  rewrite ltb_60 by assumption.
  set (V1 := fnum (add (of_literal y 2) (of_literal n 2)) * _) in *.
  set (V2 := fnum (sub (of_literal 100 2) (of_literal m 2)) * _) in *.
  destruct (Z.ltb_spec V1 V2); destruct (Z.ltb_spec (y + n) (100 - m)); try reflexivity; lia.
Qed.

(** The same for [1.00 + min_profit < yes + no] off [y + n = 100 + m]. *)
Lemma sell_test_cents (m y n : Z) :
  0 <= m <= 100 -> 0 <= y <= 100 -> 0 <= n <= 100 -> y + n <> 100 + m ->
  ltb (add (of_literal 100 2) (of_literal m 2)) (add (of_literal y 2) (of_literal n 2))
  = (100 + m <? y + n).
Proof.
  intros Hm Hy Hn Ne.
  destruct (sum_close y n Hy Hn) as [E1 B1]. destruct (sell_close m Hm) as [E2 B2].
  rewrite ltb_60 by assumption.
  set (V1 := fnum (add (of_literal y 2) (of_literal n 2)) * _) in *.
  set (V2 := fnum (add (of_literal 100 2) (of_literal m 2)) * _) in *.
  destruct (Z.ltb_spec V2 V1); destruct (Z.ltb_spec (100 + m) (y + n)); try reflexivity; lia.
Qed.

End FloatBounds.

(** Claim C2, as stated: the notes' detector decides on the gross sum of
    the two prices. With Kalshi fees (2 cents at 42) and [min_profit] 0.15,
    YES 0.42 + NO 0.42 is emitted although [100 - 42 - 42 - 2 - 2 = 12 < 15];
    and with no liquidity an opportunity of size 0 is emitted. *)
Lemma detector_net_profit_cex :
  Detector.detect_single_condition_arbitrage (PyFloat.of_literal 15 2) 1000
    (PyFloat.of_literal 42 2) (PyFloat.of_literal 42 2) 10 = Some (Detector.BuyBoth 10) /\
  100 - 42 - 42 - Fee.kalshi_fee_cents 42 - Fee.kalshi_fee_cents 42 < 15 /\
  Detector.detect_single_condition_arbitrage (PyFloat.of_literal 15 2) 1000
    (PyFloat.of_literal 30 2) (PyFloat.of_literal 30 2) 0 = Some (Detector.BuyBoth 0).
Proof. vm_compute. split; [reflexivity|split; reflexivity]. Qed.

(** Claim C2, as amended. For prices and [min_profit] written as dollar
    literals of whole cents [y], [n], [m] in 0..100, the detector emits
    buy-both whenever [y + n < 100 - m] and never when [y + n > 100 - m]
    (no fee is subtracted); on the boundary the float rounding decides
    (0.06 + 0.86 against 0.08 emits, 0.50 + 0.50 against 0.00 does not).
    A buy-both has size [min(liquidity, max_capital)], with no check that
    it is positive; the cross-platform gate skips a profit below
    [MIN_ARB_SPREAD = 15] cents and keeps any other. *)
Theorem detector_gross_spread (min_profit yes_price no_price max_capital liquidity : Z) :
  0 <= min_profit <= 100 -> 0 <= yes_price <= 100 -> 0 <= no_price <= 100 ->
  let det := Detector.detect_single_condition_arbitrage (PyFloat.of_literal min_profit 2)
               max_capital (PyFloat.of_literal yes_price 2) (PyFloat.of_literal no_price 2)
               liquidity in
  (yes_price + no_price < 100 - min_profit ->
     det = Some (Detector.BuyBoth (Z.min liquidity max_capital))) /\
  (100 - min_profit < yes_price + no_price -> forall sz, det <> Some (Detector.BuyBoth sz)) /\
  (forall sz, det = Some (Detector.BuyBoth sz) -> sz = Z.min liquidity max_capital) /\
  (forall profit_cents, Detector.arb_spread_gate profit_cents = None
                        <-> profit_cents < Detector.MIN_ARB_SPREAD) /\
  Detector.detect_single_condition_arbitrage (PyFloat.of_literal 8 2) max_capital
    (PyFloat.of_literal 6 2) (PyFloat.of_literal 86 2) liquidity
    = Some (Detector.BuyBoth (Z.min liquidity max_capital)) /\
  Detector.detect_single_condition_arbitrage (PyFloat.of_literal 0 2) max_capital
    (PyFloat.of_literal 50 2) (PyFloat.of_literal 50 2) liquidity = None.
Proof.
  intros Hm Hy Hn det. unfold det, Detector.detect_single_condition_arbitrage.
  split; [|split; [|split; [|split; [|split]]]].
  - intros L. rewrite buy_test_cents by (assumption || lia).
    destruct (Z.ltb_spec (yes_price + no_price) (100 - min_profit)); [reflexivity|lia].
  - intros L sz. rewrite buy_test_cents by (assumption || lia).
    destruct (Z.ltb_spec (yes_price + no_price) (100 - min_profit)); [lia|].
    destruct (PyFloat.ltb _ _); discriminate.
  - intros sz. destruct (PyFloat.ltb _ _).
    + intros E. injection E. auto.
    + destruct (PyFloat.ltb _ _); discriminate.
  - intros profit_cents. unfold Detector.arb_spread_gate.
    destruct (Z.ltb_spec profit_cents Detector.MIN_ARB_SPREAD); split; (discriminate || lia || auto).
  - vm_compute. reflexivity.
  - vm_compute. reflexivity.
Qed.

Lemma detector_gross_spread_witness :
  Detector.detect_single_condition_arbitrage (PyFloat.of_literal 15 2) 1000
    (PyFloat.of_literal 40 2) (PyFloat.of_literal 40 2) 80 = Some (Detector.BuyBoth 80) /\
  Detector.arb_spread_gate 14 = None.
Proof.
  destruct (detector_gross_spread 15 40 40 1000 80) as (E & _ & _ & G & _); [lia|lia|lia|].
  split; [apply E; lia|apply G; unfold Detector.MIN_ARB_SPREAD; lia].
Defined.

(** ** Partial-fill reconciliation *)

Section ReconcileProofs.
Import Reconcile.

Lemma pos_insert_eq (g : gmap Z Z) (m v : Z) : pos (<[m := v]> g) m = v.
Proof. unfold pos. rewrite lookup_insert_eq. reflexivity. Qed.

Lemma record_leg_yes (l : ledger) (m p : Z) (r : leg_result) :
  0 <= filled r ->
  pos (yes_position (record_leg l m Yes p r)) m = pos (yes_position l) m + filled r /\
  no_position (record_leg l m Yes p r) = no_position l.
Proof.
  intros H. unfold record_leg. rewrite Z.gtb_ltb.
  destruct (Z.ltb_spec 0 (filled r)); simpl.
  - rewrite pos_insert_eq. split; reflexivity.
  - split; [lia|reflexivity].
Qed.

Lemma record_leg_no (l : ledger) (m p : Z) (r : leg_result) :
  0 <= filled r ->
  pos (no_position (record_leg l m No p r)) m = pos (no_position l) m + filled r /\
  yes_position (record_leg l m No p r) = yes_position l.
Proof.
  intros H. unfold record_leg. rewrite Z.gtb_ltb.
  destruct (Z.ltb_spec 0 (filled r)); simpl.
  - rewrite pos_insert_eq. split; reflexivity.
  - split; [lia|reflexivity].
Qed.

End ReconcileProofs.

(** Claim C7. Settling a two-leg attempt computes [matched] as the smaller
    fill and [actual_profit = matched * 100 - (yes_cost + no_cost)]; a pair
    with an unfilled leg is not a success; and the ledger's position of each
    side grows by exactly that leg's own fill, so an unfilled leg adds no
    position. *)
Theorem settle_records_actual_legs (l : Reconcile.ledger) (m yes_price no_price : Z)
    (yes no : Reconcile.leg_result) :
  0 <= Reconcile.filled yes -> 0 <= Reconcile.filled no ->
  let '(r, l') := Reconcile.settle l m yes_price no_price yes no in
  Reconcile.matched r = Z.min (Reconcile.filled yes) (Reconcile.filled no) /\
  Reconcile.actual_profit r = Reconcile.matched r * 100 - (Reconcile.cost yes + Reconcile.cost no) /\
  (Reconcile.filled yes = 0 \/ Reconcile.filled no = 0 -> Reconcile.success r = false) /\
  Reconcile.pos (Reconcile.yes_position l') m
    = Reconcile.pos (Reconcile.yes_position l) m + Reconcile.filled yes /\
  Reconcile.pos (Reconcile.no_position l') m
    = Reconcile.pos (Reconcile.no_position l) m + Reconcile.filled no.
Proof.
  intros Hy Hn. unfold Reconcile.settle. simpl.
  destruct (record_leg_yes l m yes_price yes Hy) as [Y1 N1].
  destruct (record_leg_no (Reconcile.record_leg l m Reconcile.Yes yes_price yes) m no_price no Hn)
    as [N2 Y2].
  split; [reflexivity|]. split; [reflexivity|]. split; [|split].
  - intros H. rewrite Z.gtb_ltb. apply Z.ltb_ge. lia.
  - rewrite Y2. exact Y1.
  - rewrite N2, N1. reflexivity.
Qed.

(** The partial fill of the design's scenario: leg A (YES) fills 80
    contracts at 40, leg B (NO) times out unfilled. *)
Lemma settle_records_actual_legs_witness :
  let '(r, l') := Reconcile.settle Reconcile.ledger_empty 1 40 50
                    (Reconcile.mk_leg 80 3200) (Reconcile.mk_leg 0 0) in
  Reconcile.matched r = 0 /\ Reconcile.actual_profit r = -3200 /\
  Reconcile.success r = false /\
  Reconcile.pos (Reconcile.yes_position l') 1 = 80 /\
  Reconcile.pos (Reconcile.no_position l') 1 = 0.
Proof.
  pose proof (settle_records_actual_legs Reconcile.ledger_empty 1 40 50
                (Reconcile.mk_leg 80 3200) (Reconcile.mk_leg 0 0)) as H.
  destruct (Reconcile.settle Reconcile.ledger_empty 1 40 50
              (Reconcile.mk_leg 80 3200) (Reconcile.mk_leg 0 0)) as [r l'].
  destruct H as (M & P & S & Y & N); [simpl; lia|simpl; lia|].
  simpl in M. rewrite M in P. simpl in P.
  split; [exact M|split; [exact P|split; [apply S; right; reflexivity|]]].
  rewrite Y, N. split; reflexivity.
Defined.

(** ** Orderbook state store *)

Section OrderbookProofs.
Import Orderbook.

(** After an update, the key's snapshot is at least as new as the update. *)
Lemma update_version_ge (st : store) (v m : Z) (u : snapshot) :
  exists cur, books (snd (update st v m u)) !! (v, m) = Some cur /\ version u <= version cur.
Proof.
  unfold update. destruct (books st !! (v, m)) as [cur|] eqn:L.
  - destruct (Z.ltb_spec (version cur) (version u)); simpl.
    + exists u. rewrite lookup_insert_eq. split; [reflexivity|lia].
    + exists cur. split; [exact L|lia].
  - exists u. simpl. rewrite lookup_insert_eq. split; [reflexivity|lia].
Qed.

End OrderbookProofs.

(** Claim C8. An update over an existing snapshot is accepted exactly when
    its version is strictly greater, and a discarded update returns the
    [Stale] outcome (there is no error) with only the drop metric raised;
    so after [u1], an update [u2] with [u2.version <= u1.version] leaves
    the snapshots as [u1] left them, [u1] itself when it was accepted. *)
Theorem update_idempotent_to_staleness (st : Orderbook.store) (venue m : Z)
    (u1 u2 : Orderbook.snapshot) :
  (forall cur snap, Orderbook.books st !! (venue, m) = Some cur ->
     (fst (Orderbook.update st venue m snap) = Orderbook.Accepted
      <-> Orderbook.version cur < Orderbook.version snap) /\
     (fst (Orderbook.update st venue m snap) = Orderbook.Stale ->
      snd (Orderbook.update st venue m snap)
        = Orderbook.mk_store (Orderbook.books st) (S (Orderbook.stale_dropped st)))) /\
  (Orderbook.version u2 <= Orderbook.version u1 ->
   let st1 := snd (Orderbook.update st venue m u1) in
   Orderbook.update st1 venue m u2
     = (Orderbook.Stale, Orderbook.mk_store (Orderbook.books st1) (S (Orderbook.stale_dropped st1))) /\
   (fst (Orderbook.update st venue m u1) = Orderbook.Accepted ->
    Orderbook.books st1 !! (venue, m) = Some u1)).
Proof.
  split.
  - intros cur snap L. unfold Orderbook.update. rewrite L.
    destruct (Z.ltb_spec (Orderbook.version cur) (Orderbook.version snap)); simpl.
    + split; [split; [intros _; lia|reflexivity]|discriminate].
    + split; [split; [discriminate|lia]|reflexivity].
  - intros H. simpl.
    destruct (update_version_ge st venue m u1) as (cur & L & V).
    split.
    + unfold Orderbook.update at 1. rewrite L.
      destruct (Z.ltb_spec (Orderbook.version cur) (Orderbook.version u2)); [lia|reflexivity].
    + unfold Orderbook.update. destruct (Orderbook.books st !! (venue, m)) as [c|].
      * destruct (Z.ltb_spec (Orderbook.version c) (Orderbook.version u1)); simpl;
          [intros _; apply lookup_insert_eq|discriminate].
      * intros _. simpl. apply lookup_insert_eq.
Qed.

Lemma update_idempotent_to_staleness_witness :
  let u1 := Orderbook.mk_snapshot 45 50 100 80 7 in
  let u2 := Orderbook.mk_snapshot 44 49 10 10 7 in
  let st1 := snd (Orderbook.update (Orderbook.mk_store ∅ 0) 1 2 u1) in
  Orderbook.version u2 <= Orderbook.version u1 /\
  Orderbook.update st1 1 2 u2 = (Orderbook.Stale, Orderbook.mk_store (Orderbook.books st1) 1%nat).
Proof.
  simpl. split; [lia|].
  assert (V : 7 <= 7) by lia.
  destruct (proj2 (update_idempotent_to_staleness (Orderbook.mk_store ∅ 0) 1 2
           (Orderbook.mk_snapshot 45 50 100 80 7) (Orderbook.mk_snapshot 44 49 10 10 7)) V)
    as [E _].
  exact E.
Defined.

(** * Further properties of the code *)

(** ** In-flight deduplication *)

Lemma py_index_neg (len i : Z) : - len <= i < 0 -> py_index len i = Some (Z.to_nat (len + i)).
Proof.
  intros H. unfold py_index.
  destruct ((0 <=? i) && (i <? len)) eqn:E.
  { apply andb_true_iff in E as [E _]. apply Z.leb_le in E. lia. }
  destruct ((- len <=? i) && (i <? 0)) eqn:F; [reflexivity|].
  apply andb_false_iff in F as [F|F]; [apply Z.leb_gt in F|apply Z.ltb_ge in F]; lia.
Qed.

Lemma py_index_below (len i : Z) : i < - len -> py_index len i = None.
Proof.
  intros H. unfold py_index.
  destruct ((0 <=? i) && (i <? len)) eqn:E.
  { apply andb_true_iff in E as [E F]. apply Z.leb_le in E. apply Z.ltb_lt in F. lia. }
  destruct ((- len <=? i) && (i <? 0)) eqn:F; [|reflexivity].
  apply andb_true_iff in F as [F _]. apply Z.leb_le in F. lia.
Qed.

Lemma py_index_wrap (len i : Z) : - len <= i < 0 -> py_index len (i + len) = py_index len i.
Proof.
  intros H. rewrite py_index_in by lia. rewrite py_index_neg by lia. rewrite Z.add_comm. reflexivity.
Qed.

Lemma repeat_lookup_lt (x : Z) (k i : nat) : (i < k)%nat -> repeat x k !! i = Some x.
Proof.
  revert i. induction k as [|k IH]; intros [|i] H; simpl; try lia; try reflexivity.
  apply IH. lia.
Qed.

Section DedupeMore.
Import Dedupe.

Lemma land_lor_lnot_mask (v b : Z) : 0 <= b -> Z.testbit v b = false ->
  Z.land (Z.lor v (Z.shiftl 1 b)) (Z.lnot (Z.shiftl 1 b)) = v.
Proof.
  intros Hb T. apply Z.bits_inj'. intros n Hn.
  rewrite testbit_clear, testbit_set by lia.
  destruct (Z.eqb_spec b n); [subst; rewrite T|]; destruct (Z.testbit v n); reflexivity.
Qed.

(** For an id in range, [try_claim] answers whether the bit was clear and
    leaves the object with the bit set. *)
Lemma try_claim_set_bit (s : dedupe) (m : Z) :
  wf s -> 0 <= m < 512 -> try_claim s m = Some (negb (claimed s m), set_bit s m).
Proof.
  intros W H. destruct (slot_lookup s m W H) as [v L].
  rewrite (claimed_at s m v W H L).
  unfold try_claim, set_bit. rewrite L. simpl.
  rewrite py_get_in by (apply slot_in_range; assumption). rewrite L.
  unfold mask_of. rewrite land_mask_zero by apply mod64_range.
  destruct (Z.testbit v (m mod 64)) eqn:T; simpl.
  - assert (Hv : Z.lor v (Z.shiftl 1 (m mod 64)) = v).
    { apply Z.bits_inj'. intros n Hn.
      rewrite testbit_set by (try apply mod64_range; lia).
      destruct (Z.eqb_spec (m mod 64) n) as [<-|]; [rewrite T; reflexivity|apply orb_false_r]. }
    rewrite Hv, (list_insert_id _ _ _ L). destruct s; reflexivity.
  - rewrite py_set_in by (apply slot_in_range; assumption). reflexivity.
Qed.

Lemma set_bit_wf (s : dedupe) (m : Z) : wf s -> wf (set_bit s m).
Proof. apply wf_update. Qed.

Lemma set_bit_lookup (s : dedupe) (m : Z) (v : Z) :
  wf s -> 0 <= m < 512 -> bitmask s !! Z.to_nat (m / 64) = Some v ->
  bitmask (set_bit s m) !! Z.to_nat (m / 64) = Some (Z.lor v (mask_of m)).
Proof.
  intros W H L. unfold set_bit. simpl. rewrite L. simpl.
  apply list_lookup_insert_eq. pose proof (slot_in_range s m W H). lia.
Qed.

Lemma set_bit_other_slot (s : dedupe) (m i : nat) (mi : Z) :
  Z.to_nat (mi / 64) <> i -> bitmask (set_bit s mi) !! i = bitmask s !! i.
Proof. intros N. unfold set_bit. simpl. apply list_lookup_insert_ne. exact N. Qed.

Lemma set_bit_commute (s : dedupe) (a b : Z) :
  wf s -> 0 <= a < 512 -> 0 <= b < 512 -> set_bit (set_bit s a) b = set_bit (set_bit s b) a.
Proof.
  intros W Ha Hb.
  destruct (slot_lookup s a W Ha) as [va La].
  destruct (slot_lookup s b W Hb) as [vb Lb].
  pose proof (slot_range a Ha). pose proof (slot_range b Hb).
  destruct (Z.eqb_spec (a / 64) (b / 64)) as [E|E].
  - assert (Ei : Z.to_nat (a / 64) = Z.to_nat (b / 64)) by lia.
    assert (vb = va) by (rewrite Ei in La; congruence). subst vb.
    pose proof (slot_in_range s a W Ha) as Ra.
    unfold set_bit; simpl. rewrite La, Lb. simpl. rewrite <- Ei.
    rewrite !list_lookup_insert_eq by lia. simpl.
    rewrite !list_insert_insert_eq. f_equal. f_equal.
    rewrite <- !Z.lor_assoc, (Z.lor_comm (mask_of a)). reflexivity.
  - assert (Ei : Z.to_nat (a / 64) <> Z.to_nat (b / 64)) by lia.
    unfold set_bit; simpl.
    rewrite !list_lookup_insert_ne by (try exact Ei; exact (not_eq_sym Ei)).
    rewrite La, Lb. simpl. f_equal.
    apply list_insert_insert_ne. exact (not_eq_sym Ei).
Qed.

Lemma set_bit_claimed_other (s : dedupe) (a b : Z) :
  wf s -> 0 <= a < 512 -> 0 <= b < 512 -> a <> b -> claimed (set_bit s a) b = claimed s b.
Proof.
  intros W Ha Hb N.
  destruct (claimed s a) eqn:C.
  - pose proof (try_claim_set_bit s a W Ha) as T. rewrite try_claim_taken in T by assumption.
    injection T as _ T. rewrite <- T. reflexivity.
  - destruct (try_claim_free s a W Ha C) as (s' & T & _ & _ & Keep).
    rewrite try_claim_set_bit in T by assumption. injection T as _ T. subst s'.
    apply Keep; [exact Hb|exact (not_eq_sym N)].
Qed.

End DedupeMore.

(** [self.bitmask[slot] |= mask] then [self.bitmask[slot] &= ~mask]: a
    successful [try_claim] followed by [release] of the same id gives back
    the object exactly as it was. *)
Theorem try_claim_release_restores (s s' : Dedupe.dedupe) (m : Z) :
  Dedupe.wf s -> 0 <= m < 512 -> Dedupe.try_claim s m = Some (true, s') ->
  Dedupe.release s' m = Some s.
Proof.
  intros W H T. destruct (slot_lookup s m W H) as [v L].
  pose proof (slot_in_range s m W H) as R.
  unfold Dedupe.try_claim, Dedupe.mask_of in T.
  rewrite py_get_in, L in T by exact R.
  rewrite land_mask_zero in T by apply mod64_range.
  destruct (Z.testbit v (m mod 64)) eqn:Tb; simpl in T; [discriminate|].
  rewrite py_set_in in T by exact R. injection T as <-.
  unfold Dedupe.release, Dedupe.mask_of. simpl.
  rewrite py_get_in by (rewrite length_insert; exact R).
  rewrite list_lookup_insert_eq by lia.
  rewrite py_set_in by (rewrite length_insert; exact R).
  rewrite list_insert_insert_eq, land_lor_lnot_mask, (list_insert_id _ _ _ L)
    by (try apply mod64_range; exact Tb).
  destruct s; reflexivity.
Qed.

Lemma try_claim_release_restores_witness :
  Dedupe.wf Dedupe.init /\
  Dedupe.release (Dedupe.set_bit Dedupe.init 130) 130 = Some Dedupe.init.
Proof.
  split; [reflexivity|].
  apply (try_claim_release_restores Dedupe.init _ 130); [reflexivity|lia|].
  vm_compute. reflexivity.
Defined.

(** Claims of two different in-range ids do not interfere: in either order
    each call answers whether its own id was free, and both orders leave
    the same object. *)
Theorem try_claim_commute (s : Dedupe.dedupe) (a b : Z) :
  Dedupe.wf s -> 0 <= a < 512 -> 0 <= b < 512 -> a <> b ->
  exists s',
    Dedupe.run s [Dedupe.TryClaim a; Dedupe.TryClaim b] =
      Some (s', [(Dedupe.TryClaim a, Some (negb (Dedupe.claimed s a)));
                 (Dedupe.TryClaim b, Some (negb (Dedupe.claimed s b)))]) /\
    Dedupe.run s [Dedupe.TryClaim b; Dedupe.TryClaim a] =
      Some (s', [(Dedupe.TryClaim b, Some (negb (Dedupe.claimed s b)));
                 (Dedupe.TryClaim a, Some (negb (Dedupe.claimed s a)))]).
Proof.
  intros W Ha Hb N.
  exists (Dedupe.set_bit (Dedupe.set_bit s a) b). simpl.
  rewrite (try_claim_set_bit s a W Ha), (try_claim_set_bit s b W Hb).
  rewrite (try_claim_set_bit _ b (set_bit_wf s a W) Hb).
  rewrite (try_claim_set_bit _ a (set_bit_wf s b W) Ha).
  rewrite (set_bit_claimed_other s a b W Ha Hb N).
  rewrite (set_bit_claimed_other s b a W Hb Ha (not_eq_sym N)).
  rewrite (set_bit_commute s b a W Hb Ha).
  split; reflexivity.
Qed.

Lemma try_claim_commute_witness :
  exists s', Dedupe.run Dedupe.init [Dedupe.TryClaim 3; Dedupe.TryClaim 67] =
      Some (s', [(Dedupe.TryClaim 3, Some true); (Dedupe.TryClaim 67, Some true)]) /\
    Dedupe.run Dedupe.init [Dedupe.TryClaim 67; Dedupe.TryClaim 3] =
      Some (s', [(Dedupe.TryClaim 67, Some true); (Dedupe.TryClaim 3, Some true)]).
Proof.
  destruct (try_claim_commute Dedupe.init 3 67 init_wf) as (s' & E1 & E2); [lia|lia|lia|].
  rewrite !init_free in E1, E2 by lia. exists s'. split; assumption.
Defined.

Lemma py_get_wrap (l : list Z) (i : Z) :
  - Z.of_nat (length l) <= i < 0 -> py_get l (i + Z.of_nat (length l)) = py_get l i.
Proof. intros H. unfold py_get. rewrite py_index_wrap by exact H. reflexivity. Qed.

Lemma py_set_wrap (l : list Z) (i v : Z) :
  - Z.of_nat (length l) <= i < 0 -> py_set l (i + Z.of_nat (length l)) v = py_set l i v.
Proof. intros H. unfold py_set. rewrite py_index_wrap by exact H. reflexivity. Qed.

(** Python's negative list indexing reaches the object's slots from below:
    an id [m] in -512..-1 is served by the same slot and bit as [m + 512],
    so [try_claim] and [release] of [m] act on market [m + 512]; an id
    below -512 raises [IndexError]. *)
Theorem negative_ids_alias (s : Dedupe.dedupe) (m : Z) :
  Dedupe.wf s ->
  (-512 <= m < 0 ->
     Dedupe.try_claim s m = Dedupe.try_claim s (m + 512) /\
     Dedupe.release s m = Dedupe.release s (m + 512)) /\
  (m < -512 -> Dedupe.try_claim s m = None /\ Dedupe.release s m = None).
Proof.
  intros W. split.
  - intros H.
    assert (Hs : (m + 512) / 64 = m / 64 + 8).
    { replace (m + 512) with (m + 8 * 64) by lia. apply Z.div_add. lia. }
    assert (Hb : (m + 512) mod 64 = m mod 64).
    { replace (m + 512) with (m + 8 * 64) by lia. apply Z_mod_plus_full. }
    assert (Hr : -8 <= m / 64 < 0).
    { split; [apply Z.div_le_lower_bound|apply Z.div_lt_upper_bound]; lia. }
    assert (Hg : py_get (Dedupe.bitmask s) (m / 64 + 8) = py_get (Dedupe.bitmask s) (m / 64)).
    { pose proof (py_get_wrap (Dedupe.bitmask s) (m / 64)) as G.
      rewrite W in G. apply G. simpl. lia. }
    assert (Hp : forall v, py_set (Dedupe.bitmask s) (m / 64 + 8) v = py_set (Dedupe.bitmask s) (m / 64) v).
    { intros v. pose proof (py_set_wrap (Dedupe.bitmask s) (m / 64) v) as G.
      rewrite W in G. apply G. simpl. lia. }
    unfold Dedupe.try_claim, Dedupe.release, Dedupe.mask_of. cbv zeta.
    rewrite Hs, Hb, Hg.
    destruct (py_get (Dedupe.bitmask s) (m / 64)) as [cur|]; [|split; reflexivity].
    rewrite !Hp. split; reflexivity.
  - intros H.
    assert (Hr : m / 64 < -8) by (apply Z.div_lt_upper_bound; lia).
    assert (N : py_get (Dedupe.bitmask s) (m / 64) = None).
    { unfold py_get. rewrite W, py_index_below; [reflexivity|simpl; lia]. }
    unfold Dedupe.try_claim, Dedupe.release. rewrite N. split; reflexivity.
Qed.

Lemma negative_ids_alias_witness :
  Dedupe.try_claim Dedupe.init (-1) = Dedupe.try_claim Dedupe.init 511 /\
  Dedupe.try_claim Dedupe.init (-600) = None.
Proof.
  destruct (negative_ids_alias Dedupe.init (-1) init_wf) as [A _].
  destruct (negative_ids_alias Dedupe.init (-600) init_wf) as [_ B].
  split; [apply A; lia|apply B; lia].
Defined.

(** [__init__(num_markets)] keeps [num_markets // 64] slots: on a fresh
    object, [try_claim(m)] of an id [m >= 0] succeeds exactly when
    [m < 64 * (num_markets // 64)] and raises [IndexError] otherwise, so the
    ids past the last full block of 64 are lost (for [num_markets = 100],
    every id from 64 on). *)
Theorem init_with_claim_range (n m : Z) :
  0 <= m ->
  (m < 64 * (n / 64) ->
     Dedupe.try_claim (Dedupe.init_with n) m = Some (true, Dedupe.set_bit (Dedupe.init_with n) m)) /\
  (64 * (n / 64) <= m -> Dedupe.try_claim (Dedupe.init_with n) m = None).
Proof.
  intros Hm.
  assert (Len : Z.of_nat (length (Dedupe.bitmask (Dedupe.init_with n))) = Z.max 0 (n / 64)).
  { simpl. rewrite repeat_length. lia. }
  split.
  - intros H.
    assert (Hs : 0 <= m / 64 < n / 64).
    { split; [apply Z.div_pos; lia|apply Z.div_lt_upper_bound; lia]. }
    assert (R : 0 <= m / 64 < Z.of_nat (length (Dedupe.bitmask (Dedupe.init_with n)))) by lia.
    assert (L : Dedupe.bitmask (Dedupe.init_with n) !! Z.to_nat (m / 64) = Some 0).
    { simpl. apply repeat_lookup_lt. lia. }
    unfold Dedupe.try_claim, Dedupe.set_bit. cbv zeta.
    rewrite py_get_in by exact R. rewrite !L.
    rewrite py_set_in by exact R. reflexivity.
  - intros H.
    assert (Hs : n / 64 <= m / 64) by (apply Z.div_le_lower_bound; lia).
    assert (Hp : 0 <= m / 64) by (apply Z.div_pos; lia).
    unfold Dedupe.try_claim. cbv zeta. unfold py_get.
    rewrite Len, py_index_above by lia. reflexivity.
Qed.

Lemma init_with_claim_range_witness :
  Dedupe.try_claim (Dedupe.init_with 100) 70 = None /\
  Dedupe.try_claim (Dedupe.init_with 100) 63 = Some (true, Dedupe.set_bit (Dedupe.init_with 100) 63).
Proof.
  split.
  - apply (proj2 (init_with_claim_range 100 70 ltac:(lia))). vm_compute. discriminate.
  - apply (proj1 (init_with_claim_range 100 63 ltac:(lia))). vm_compute. reflexivity.
Defined.

(** The Rust variant: for an id below 512, [fetch_or] leaves the bit set,
    so a second claim of the same id after a successful one is refused with
    [Err("Already in-flight")]. *)
Theorem rust_claim_twice (l l' : list Z) (m : Z) :
  length l = 8%nat -> 0 <= m < 512 -> Dedupe.rust_claim l m = Some l' ->
  Dedupe.rust_claim l' m = None.
Proof.
  intros W H C. pose proof (slot_range m H) as R.
  assert (Hl : (Z.to_nat (m / 64) < length l)%nat) by lia.
  destruct (lookup_lt_is_Some_2 l _ Hl) as [prev L].
  unfold Dedupe.rust_claim in *.
  destruct (Z.ltb_spec m 512); [|lia].
  rewrite L in C. rewrite land_mask_zero in C by apply mod64_range.
  destruct (Z.testbit prev (m mod 64)) eqn:T; simpl in C; [discriminate|].
  injection C as <-.
  rewrite list_lookup_insert_eq by exact Hl.
  rewrite land_mask_zero, testbit_set by (try apply mod64_range; lia).
  rewrite Z.eqb_refl, orb_true_r. reflexivity.
Qed.

Lemma rust_claim_twice_witness :
  Dedupe.rust_claim (<[0%nat := 32]> Dedupe.rust_init) 5 = None.
Proof.
  apply (rust_claim_twice Dedupe.rust_init _ 5); [reflexivity|lia|].
  vm_compute. reflexivity.
Defined.

(** ** Fee model *)

(** [kalshi_fee_cents] is symmetric on 0..100: the fee at [p] equals the
    fee at [100 - p], so a YES and a NO contract at complementary prices
    pay the same fee. *)
Theorem kalshi_fee_symmetric (p : Z) :
  0 <= p <= 100 -> Fee.kalshi_fee_cents p = Fee.kalshi_fee_cents (100 - p).
Proof.
  intros H. unfold Fee.kalshi_fee_cents.
  rewrite !Z.gtb_ltb.
  destruct (Z.ltb_spec 100 p); [lia|]. destruct (Z.ltb_spec 100 (100 - p)); [lia|].
  destruct (Z.eqb_spec p 0) as [->|]; [reflexivity|].
  destruct (Z.eqb_spec (100 - p) 0) as [E|]; simpl.
  - replace p with 100 by lia. reflexivity.
  - f_equal. f_equal. ring.
Qed.

Lemma kalshi_fee_symmetric_witness :
  Fee.kalshi_fee_cents 17 = Fee.kalshi_fee_cents 83.
Proof. apply (kalshi_fee_symmetric 17). lia. Defined.

(** For every price strictly between 0 and 100 the fee is 1 or 2 cents. *)
Theorem kalshi_fee_bounds (p : Z) :
  1 <= p <= 99 -> 1 <= Fee.kalshi_fee_cents p <= 2.
Proof.
  intros H. unfold Fee.kalshi_fee_cents. rewrite Z.gtb_ltb.
  destruct (Z.ltb_spec 100 p); [lia|]. destruct (Z.eqb_spec p 0); [lia|]. simpl.
  assert (0 <= (p - 1) * (99 - p)) by (apply Z.mul_nonneg_nonneg; lia).
  assert (0 <= (50 - p) * (50 - p)) by apply Z.square_nonneg.
  replace (7 * p * (100 - p)) with (7 * (p * (100 - p))) by ring.
  assert (B : 99 <= p * (100 - p) <= 2500) by nia.
  split.
  - apply Z.div_le_lower_bound; lia.
  - apply Z.lt_succ_r, Z.div_lt_upper_bound; lia.
Qed.

Lemma kalshi_fee_bounds_witness : 1 <= Fee.kalshi_fee_cents 50 <= 2.
Proof. apply kalshi_fee_bounds. lia. Defined.

(** [kalshi_fee_cents] guards only [price_cents > 100] and [== 0]: a negative
    price is not rejected, its fee is never positive, and it is negative
    (-1 cent and below) exactly for prices of -13 and below. *)
Theorem kalshi_fee_negative_prices (p : Z) :
  p < 0 -> Fee.kalshi_fee_cents p <= 0 /\ (Fee.kalshi_fee_cents p < 0 <-> p <= -13).
Proof.
  intros H. unfold Fee.kalshi_fee_cents. rewrite Z.gtb_ltb.
  destruct (Z.ltb_spec 100 p); [lia|]. destruct (Z.eqb_spec p 0); [lia|]. simpl.
  split; [|split].
  - apply Z.lt_succ_r, Z.div_lt_upper_bound; nia.
  - intros Neg. destruct (Z.le_gt_cases p (-13)) as [|Hp]; [assumption|].
    assert (0 <= (7 * p * (100 - p) + 9999) / 10000) by (apply Z.div_pos; nia). lia.
  - intros Hp. apply Z.div_lt_upper_bound; nia.
Qed.

Lemma kalshi_fee_negative_prices_witness :
  Fee.kalshi_fee_cents (-20) < 0 /\ Fee.kalshi_fee_cents (-5) = 0.
Proof.
  destruct (kalshi_fee_negative_prices (-20)) as [_ [_ A]]; [lia|].
  destruct (kalshi_fee_negative_prices (-5)) as [B [C _]]; [lia|].
  split; [apply A; lia|].
  assert (~ Fee.kalshi_fee_cents (-5) < 0) by (intros N; apply C in N; lia). lia.
Defined.

(** ** Circuit breaker *)

(** [can_execute] bounds the order size only from above: if it lets an
    order of [contracts] through, it lets every smaller order (including a
    negative one) through on the same state. *)
Theorem can_execute_smaller_order (b : Breaker.breaker) (m c c' : Z) :
  c' <= c ->
  fst (Breaker.can_execute b m c) = true ->
  fst (Breaker.can_execute b m c') = true.
Proof.
  intros Hc. unfold Breaker.can_execute.
  destruct (Breaker.halted b); [discriminate|].
  rewrite !Z.gtb_ltb.
  repeat match goal with
  | |- context [Z.ltb ?x ?y] => destruct (Z.ltb_spec x y)
  end; simpl; intros; try discriminate; try reflexivity; lia.
Qed.

Lemma can_execute_smaller_order_witness :
  fst (Breaker.can_execute Breaker.init 3 (-7)) = true.
Proof.
  apply (can_execute_smaller_order Breaker.init 3 100 (-7)); [lia|].
  vm_compute. reflexivity.
Defined.

(** On a fresh breaker ([__init__]: no positions, no P&L) [can_execute]
    accepts exactly the orders of at most 50000 contracts, negative sizes
    included, and leaves the breaker unchanged. *)
Theorem can_execute_init (m c : Z) :
  Breaker.can_execute Breaker.init m c = (c <=? 50000, Breaker.init).
Proof.
  unfold Breaker.can_execute, Breaker.position_of, Breaker.total_position.
  cbn [Breaker.halted Breaker.positions Breaker.init].
  rewrite lookup_empty, map_fold_empty. cbn -[Z.gtb Z.ltb Z.leb].
  rewrite !Z.gtb_ltb.
  destruct (Z.leb_spec c 50000);
  destruct (Z.ltb_spec 50000 (0 + c)); try lia;
  destruct (Z.ltb_spec 100000 (0 + c)); try lia; reflexivity.
Qed.

(** ** Packed orderbook word *)

Lemma u16_high_bit (x i : Z) : Packed.is_u16 x -> 16 <= i -> Z.testbit x i = false.
Proof.
  intros [H0 H1] Hi. rewrite <- (Z.mod_small x (2 ^ 16)) by lia.
  apply Z.mod_pow2_bits_high. lia.
Qed.

Ltac packed_bits :=
  repeat match goal with
  | Hx : Packed.is_u16 ?x |- context [Z.testbit ?x ?i] =>
      (rewrite (u16_high_bit x i Hx) by lia) || (rewrite (Z.testbit_neg_r x i) by lia)
  | |- context [Z.ltb ?a ?b] =>
      (rewrite (proj2 (Z.ltb_lt a b)) by lia) || (rewrite (proj2 (Z.ltb_ge a b)) by lia)
  end.

(** Bit [j] of the packed word is bit [j - 16k] of the field stored at
    offset [16k], and every bit from 64 up is clear. *)
Lemma pack_orderbook_bit (ya na ys ns j : Z) :
  Packed.is_u16 ya -> Packed.is_u16 na -> Packed.is_u16 ys -> Packed.is_u16 ns ->
  0 <= j ->
  Z.testbit (Packed.pack_orderbook ya na ys ns) j =
    if j <? 16 then Z.testbit ns j
    else if j <? 32 then Z.testbit ys (j - 16)
    else if j <? 48 then Z.testbit na (j - 32)
    else if j <? 64 then Z.testbit ya (j - 48)
    else false.
Proof.
  intros Ha Hn Hs Hns Hj. unfold Packed.pack_orderbook, Packed.u64.
  rewrite !Z.lor_spec, !Z.land_spec, !Z.testbit_ones_nonneg by lia.
  rewrite !Z.shiftl_spec by lia.
  destruct (Z.ltb_spec j 16); [|destruct (Z.ltb_spec j 32);
    [|destruct (Z.ltb_spec j 48); [|destruct (Z.ltb_spec j 64)]]];
  packed_bits; rewrite ?andb_false_r, ?andb_true_r, ?orb_false_r, ?orb_false_l;
  reflexivity.
Qed.

Lemma pack_orderbook_field (ya na ys ns k x : Z) :
  Packed.is_u16 ya -> Packed.is_u16 na -> Packed.is_u16 ys -> Packed.is_u16 ns ->
  (k, x) = (48, ya) \/ (k, x) = (32, na) \/ (k, x) = (16, ys) \/ (k, x) = (0, ns) ->
  Packed.field (Packed.pack_orderbook ya na ys ns) k = x.
Proof.
  intros Ha Hn Hs Hns Hk.
  assert (Hx : Packed.is_u16 x) by
    (destruct Hk as [E|[E|[E|E]]]; injection E as -> ->; assumption).
  assert (Hk0 : 0 <= k) by (destruct Hk as [E|[E|[E|E]]]; injection E as -> ->; lia).
  apply Z.bits_inj'. intros n Hn0. unfold Packed.field.
  rewrite Z.land_spec, Z.testbit_ones_nonneg, Z.shiftr_spec by lia.
  rewrite pack_orderbook_bit by (auto; lia).
  destruct (Z.ltb_spec n 16).
  - rewrite andb_true_r.
    destruct Hk as [E|[E|[E|E]]]; injection E as -> ->; packed_bits; f_equal; lia.
  - rewrite andb_false_r. symmetry. apply u16_high_bit; assumption.
Qed.

(** [pack_orderbook] on four 16-bit fields is a round trip: the word fits in
    a [u64] and each field is read back as [(packed >> k) as u16] at its
    offset 48, 32, 16 or 0; so two different books never pack to the same
    word. *)
Theorem pack_orderbook_roundtrip (ya na ys ns : Z) :
  Packed.is_u16 ya -> Packed.is_u16 na -> Packed.is_u16 ys -> Packed.is_u16 ns ->
  0 <= Packed.pack_orderbook ya na ys ns < 2 ^ 64 /\
  Packed.field (Packed.pack_orderbook ya na ys ns) 48 = ya /\
  Packed.field (Packed.pack_orderbook ya na ys ns) 32 = na /\
  Packed.field (Packed.pack_orderbook ya na ys ns) 16 = ys /\
  Packed.field (Packed.pack_orderbook ya na ys ns) 0 = ns.
Proof.
  intros Ha Hn Hs Hns.
  split; [|repeat split; apply pack_orderbook_field; auto].
  assert (E : Packed.pack_orderbook ya na ys ns =
              Z.land (Packed.pack_orderbook ya na ys ns) (Z.ones 64)).
  { apply Z.bits_inj'. intros j Hj.
    rewrite Z.land_spec, Z.testbit_ones_nonneg by lia.
    destruct (Z.ltb_spec j 64); [now rewrite andb_true_r|].
    rewrite andb_false_r, pack_orderbook_bit by auto.
    packed_bits. reflexivity. }
  rewrite E, Z.land_ones by lia.
  apply Z.mod_pos_bound. lia.
Qed.

Lemma pack_orderbook_roundtrip_witness :
  let w := Packed.pack_orderbook 65535 42 1000 0 in
  0 <= w < 2 ^ 64 /\ Packed.field w 48 = 65535 /\ Packed.field w 32 = 42 /\
  Packed.field w 16 = 1000 /\ Packed.field w 0 = 0.
Proof.
  apply pack_orderbook_roundtrip; unfold Packed.is_u16; lia.
Defined.

(** ** In-flight dedupe: release and the Rust variant *)

Lemma release_unclaimed (s : Dedupe.dedupe) (m : Z) :
  Dedupe.wf s -> 0 <= m < 512 -> Dedupe.claimed s m = false ->
  Dedupe.release s m = Some s.
Proof.
  intros W H C. destruct (slot_lookup s m W H) as [v L].
  rewrite (claimed_at s m v W H L) in C.
  unfold Dedupe.release, Dedupe.mask_of.
  rewrite py_get_in by (apply slot_in_range; assumption). rewrite L.
  rewrite py_set_in by (apply slot_in_range; assumption).
  assert (Hv : Z.land v (Z.lnot (Z.shiftl 1 (m mod 64))) = v).
  { apply Z.bits_inj'. intros n Hn.
    rewrite testbit_clear by (try apply mod64_range; lia).
    destruct (Z.eqb_spec (m mod 64) n) as [<-|]; [rewrite C; reflexivity|apply andb_true_r]. }
  rewrite Hv, (list_insert_id _ _ _ L). destruct s; reflexivity.
Qed.

(** [release] is idempotent, and releasing an id that is not claimed
    leaves the object unchanged. *)
Theorem release_idempotent (s : Dedupe.dedupe) (m : Z) :
  Dedupe.wf s -> 0 <= m < 512 ->
  exists s', Dedupe.release s m = Some s' /\ Dedupe.release s' m = Some s' /\
    (Dedupe.claimed s m = false -> s' = s).
Proof.
  intros W H. destruct (release_spec s m W H) as (s' & R & W' & C' & _).
  exists s'. split; [exact R|]. split; [apply release_unclaimed; assumption|].
  intros C. rewrite (release_unclaimed s m W H C) in R. congruence.
Qed.

Lemma release_idempotent_witness :
  exists s', Dedupe.release (Dedupe.set_bit Dedupe.init 130) 130 = Some s' /\
    Dedupe.release s' 130 = Some s' /\
    (Dedupe.claimed (Dedupe.set_bit Dedupe.init 130) 130 = false ->
     s' = Dedupe.set_bit Dedupe.init 130).
Proof.
  apply release_idempotent; [vm_compute; reflexivity | lia].
Defined.

(** Whatever state a [release(m)] starts from, the next [try_claim(m)]
    succeeds. *)
Theorem release_then_claim (s s' : Dedupe.dedupe) (m : Z) :
  Dedupe.wf s -> 0 <= m < 512 -> Dedupe.release s m = Some s' ->
  Dedupe.try_claim s' m = Some (true, Dedupe.set_bit s' m).
Proof.
  intros W H R. destruct (release_spec s m W H) as (s'' & R' & W' & C' & _).
  rewrite R in R'. injection R' as <-.
  rewrite try_claim_set_bit by assumption. rewrite C'. reflexivity.
Qed.

Lemma release_then_claim_witness :
  Dedupe.try_claim (Dedupe.mk_dedupe 8 [0; 0; 0; 0; 0; 0; 0; 0]) 511 =
    Some (true, Dedupe.set_bit (Dedupe.mk_dedupe 8 [0; 0; 0; 0; 0; 0; 0; 0]) 511).
Proof.
  apply (release_then_claim (Dedupe.mk_dedupe 8 [0; 0; 0; 0; 0; 0; 0; Z.shiftl 1 63]) _ 511);
    [reflexivity | lia | vm_compute; reflexivity].
Defined.

(** The Rust [fetch_or] claim of [execution.rs] and the Python [try_claim]
    agree on every id below 512: the Rust call fails exactly when the Python
    one returns [False], and otherwise leaves the same bitmask. *)
Theorem rust_python_claim_agree (s : Dedupe.dedupe) (m : Z) :
  Dedupe.wf s -> 0 <= m < 512 ->
  match Dedupe.try_claim s m with
  | Some (true, s') => Dedupe.rust_claim (Dedupe.bitmask s) m = Some (Dedupe.bitmask s')
  | Some (false, _) => Dedupe.rust_claim (Dedupe.bitmask s) m = None
  | None => False
  end.
Proof.
  intros W H. rewrite try_claim_set_bit by assumption.
  destruct (slot_lookup s m W H) as [v L].
  rewrite (claimed_at s m v W H L).
  unfold Dedupe.rust_claim. destruct (Z.ltb_spec m 512); [|lia].
  rewrite L. rewrite land_mask_zero by apply mod64_range.
  destruct (Z.testbit v (m mod 64)); simpl; [reflexivity|].
  unfold Dedupe.set_bit, Dedupe.mask_of. simpl. rewrite L. reflexivity.
Qed.

Lemma rust_python_claim_agree_witness :
  Dedupe.wf Dedupe.init /\ 0 <= 77 < 512 /\
  match Dedupe.try_claim Dedupe.init 77 with
  | Some (true, s') => Dedupe.rust_claim (Dedupe.bitmask Dedupe.init) 77 = Some (Dedupe.bitmask s')
  | Some (false, _) => Dedupe.rust_claim (Dedupe.bitmask Dedupe.init) 77 = None
  | None => False
  end.
Proof.
  split; [reflexivity|]. split; [lia|].
  apply rust_python_claim_agree; [reflexivity | lia].
Defined.

(** ** Opportunity detection and reconciliation *)

(** For dollar literals of whole cents [y], [n], [m] in 0..100,
    [detect_single_condition_arbitrage] returns [None] whenever the sum is
    strictly inside the band [100 - m .. 100 + m] and sell-both whenever it
    is above [100 + m]; a [None] answer means the sum is within the closed
    band. On the upper edge the float rounding decides: 0.22 + 0.93 against
    0.15 sells. *)
Theorem detect_none_band (min_profit yes_price no_price max_capital liquidity : Z) :
  0 <= min_profit <= 100 -> 0 <= yes_price <= 100 -> 0 <= no_price <= 100 ->
  let det := Detector.detect_single_condition_arbitrage (PyFloat.of_literal min_profit 2)
               max_capital (PyFloat.of_literal yes_price 2) (PyFloat.of_literal no_price 2)
               liquidity in
  (100 - min_profit < yes_price + no_price < 100 + min_profit -> det = None) /\
  (100 + min_profit < yes_price + no_price -> det = Some Detector.SellBoth) /\
  (det = None -> 100 - min_profit <= yes_price + no_price <= 100 + min_profit) /\
  Detector.detect_single_condition_arbitrage (PyFloat.of_literal 15 2) max_capital
    (PyFloat.of_literal 22 2) (PyFloat.of_literal 93 2) liquidity = Some Detector.SellBoth.
Proof.
  intros Hm Hy Hn det. unfold det, Detector.detect_single_condition_arbitrage.
  split; [|split; [|split]].
  - intros L. rewrite buy_test_cents, sell_test_cents by (assumption || lia).
    destruct (Z.ltb_spec (yes_price + no_price) (100 - min_profit)); [lia|].
    destruct (Z.ltb_spec (100 + min_profit) (yes_price + no_price)); [lia|reflexivity].
  - intros L. rewrite buy_test_cents, sell_test_cents by (assumption || lia).
    destruct (Z.ltb_spec (yes_price + no_price) (100 - min_profit)); [lia|].
    destruct (Z.ltb_spec (100 + min_profit) (yes_price + no_price)); [reflexivity|lia].
  - intros E.
    destruct (Z.eq_dec (yes_price + no_price) (100 - min_profit)); [lia|].
    destruct (Z.eq_dec (yes_price + no_price) (100 + min_profit)); [lia|].
    rewrite buy_test_cents, sell_test_cents in E by (assumption || lia).
    destruct (Z.ltb_spec (yes_price + no_price) (100 - min_profit)); [discriminate|].
    destruct (Z.ltb_spec (100 + min_profit) (yes_price + no_price)); [discriminate|lia].
  - vm_compute. reflexivity.
Qed.

Lemma detect_none_band_witness :
  Detector.detect_single_condition_arbitrage (PyFloat.of_literal 5 2) 1000
    (PyFloat.of_literal 50 2) (PyFloat.of_literal 52 2) 80 = None /\
  Detector.detect_single_condition_arbitrage (PyFloat.of_literal 5 2) 1000
    (PyFloat.of_literal 60 2) (PyFloat.of_literal 52 2) 80 = Some Detector.SellBoth.
Proof.
  destruct (detect_none_band 5 50 52 1000 80) as (A & _ & _ & _); [lia|lia|lia|].
  destruct (detect_none_band 5 60 52 1000 80) as (_ & B & _ & _); [lia|lia|lia|].
  split; [apply A; lia|apply B; lia].
Defined.

(** [matched = min(yes_filled, no_filled)] etc.: the result does not depend
    on which leg is YES, and [success] holds exactly when both legs filled. *)
Theorem reconcile_symmetric_success (yes no : Reconcile.leg_result) :
  Reconcile.reconcile yes no = Reconcile.reconcile no yes /\
  (Reconcile.success (Reconcile.reconcile yes no) = true <->
   0 < Reconcile.filled yes /\ 0 < Reconcile.filled no).
Proof.
  unfold Reconcile.reconcile. simpl. split.
  - rewrite Z.min_comm, (Z.add_comm (Reconcile.cost yes)). reflexivity.
  - rewrite Z.gtb_ltb. destruct (Z.ltb_spec 0 (Z.min (Reconcile.filled yes) (Reconcile.filled no)));
    split; try lia; try discriminate; reflexivity.
Qed.

(** ** Fee table and daily-loss boundary *)

Lemma fee_table_sym_check :
  forallb (fun i => bool_decide (Fee.KALSHI_FEE_TABLE !! i = Fee.KALSHI_FEE_TABLE !! (100 - i)%nat)
                    && match Fee.KALSHI_FEE_TABLE !! i with Some v => (0 <=? v) && (v <=? 2) | None => false end)
          (seq 0 101) = true.
Proof. vm_compute. reflexivity. Qed.

(** The table the [for p in range(1, 100)] loop fills is symmetric about
    50 cents, and every one of its 101 entries is between 0 and 2 cents. *)
Theorem fee_table_symmetric_bounded (i : nat) :
  (i <= 100)%nat ->
  Fee.KALSHI_FEE_TABLE !! i = Fee.KALSHI_FEE_TABLE !! (100 - i)%nat /\
  exists v, Fee.KALSHI_FEE_TABLE !! i = Some v /\ 0 <= v <= 2.
Proof.
  intros Hi. pose proof fee_table_sym_check as C.
  rewrite forallb_forall in C. specialize (C i).
  assert (Hin : In i (seq 0 101)) by (apply in_seq; lia).
  apply C, andb_prop in Hin as [E B].
  apply bool_decide_eq_true in E. split; [exact E|].
  destruct (Fee.KALSHI_FEE_TABLE !! i) as [v|]; [|discriminate].
  apply andb_prop in B as [B1 B2]. apply Z.leb_le in B1, B2.
  exists v. split; [reflexivity|lia].
Qed.

Lemma fee_table_symmetric_bounded_witness :
  Fee.KALSHI_FEE_TABLE !! 3%nat = Fee.KALSHI_FEE_TABLE !! 97%nat /\
  exists v, Fee.KALSHI_FEE_TABLE !! 3%nat = Some v /\ 0 <= v <= 2.
Proof. apply (fee_table_symmetric_bounded 3). lia. Defined.

(** The daily-loss test is strict: when the halt and both position checks
    pass, [can_execute] allows the order exactly when the daily P&L is at or
    above [-max_daily_loss * 100] cents, so a loss of exactly the limit
    still trades. *)
Theorem can_execute_daily_loss_boundary (b : Breaker.breaker) (m c : Z) :
  Breaker.halted b = false ->
  Breaker.position_of b m + c <= Breaker.max_position_per_market b ->
  Breaker.total_position b + c <= Breaker.max_total_position b ->
  fst (Breaker.can_execute b m c) = (- Breaker.max_daily_loss b * 100 <=? Breaker.daily_pnl_cents b).
Proof.
  intros Hh Hp Ht. unfold Breaker.can_execute. rewrite Hh, !Z.gtb_ltb.
  destruct (Z.ltb_spec (Breaker.max_position_per_market b) (Breaker.position_of b m + c)); [lia|].
  destruct (Z.ltb_spec (Breaker.max_total_position b) (Breaker.total_position b + c)); [lia|].
  destruct (Z.ltb_spec (Breaker.daily_pnl_cents b) (- Breaker.max_daily_loss b * 100));
  destruct (Z.leb_spec (- Breaker.max_daily_loss b * 100) (Breaker.daily_pnl_cents b));
  simpl; try reflexivity; lia.
Qed.

Lemma can_execute_daily_loss_boundary_witness :
  let b := Breaker.record_fill Breaker.init 4 10 (-5000) in
  fst (Breaker.can_execute b 4 1) = true.
Proof.
  intros b.
  rewrite (can_execute_daily_loss_boundary b 4 1); [vm_compute; reflexivity| reflexivity | |].
  - vm_compute. discriminate.
  - vm_compute. discriminate.
Defined.
